(** * esg-matching: the JSON settings loader and the direct residual matcher

    Shallow embedding of
      - [esgmatching/file_reader/file_settings.py] (class [JsonSettings]) and
      - [esg_matching/matcher/drm.py] (class [DbMatcherDrm]),
    with the properties of the specification stated over the embedding. *)

From stdpp Require Import base option list strings gmap.
From Stdlib Require Import ZArith Lia Permutation.

Open Scope string_scope.
Open Scope list_scope.
Set Warnings "-register-all".

(** ** Results of fallible Python code

    A call either returns a value or raises an exception of class [E]. *)

Inductive Result (E A : Type) : Type :=
| Ok (a : A)
| Raise (e : E).
Arguments Ok {E A} a.
Arguments Raise {E A} e.

Definition bind {E A B} (m : Result E A) (k : A -> Result E B) : Result E B :=
  match m with
  | Ok a => k a
  | Raise e => Raise e
  end.

Notation "x <- m ;; k" := (bind m (fun x => k))
  (at level 100, m at next level, right associativity).

Definition is_Ok {E A} (r : Result E A) : Prop := exists a, r = Ok a.

(** Monadic map over a list, left to right: the first failure is raised. *)
Fixpoint mapM {E A B} (f : A -> Result E B) (l : list A) : Result E (list B) :=
  match l with
  | [] => Ok []
  | x :: rest => y <- f x ;; ys <- mapM f rest ;; Ok (y :: ys)
  end.

(** ** Part I: [JsonSettings] (file_settings.py) *)

Module Settings.

(** Exception classes: those of [exceptions_settings] that the loader raises,
    and the built-in exceptions of the Python operations it uses. *)
Inductive Exn : Type :=
| FileSettingsDoesNotExist
| FileSettingsIsNotAJsonFile
| DataSourceSettingsNotDefined
| IfTableExistsNotRecognized
| MatchingRoleNotRecognized
| AliasMatchingNotDefined
| FieldsMappingToMatchingTableNotDefined
| MatchingPolicyEmpty
| DfmRulesEmptyInMatchingPolicy
| DrmRulesEmptyInMatchingPolicy
| IfmRulesEmptyInMatchingPolicy
| TypeError
| KeyError
| IndexError
| ValueError
| NameError
| OtherError (name : string).

(** The exceptions declared in [exceptions_settings]: the typed
    configuration errors. *)
Definition is_settings_error (e : Exn) : bool :=
  match e with
  | TypeError | KeyError | IndexError | ValueError | NameError
  | OtherError _ => false
  | _ => true
  end.

(** Python values as [json.load] produces them (numbers are integers here),
    closed under [dict(..)], whose keys may be any hashable scalar. *)
Inductive PyVal : Type :=
| PNone
| PBool (b : bool)
| PInt (z : Z)
| PStr (s : string)
| PList (l : list PyVal)
| PDict (d : list (PyVal * PyVal)).

Abbreviation Res := (Result Exn).

Definition hashable (v : PyVal) : bool :=
  match v with
  | PList _ | PDict _ => false
  | _ => true
  end.

Definition as_int (v : PyVal) : option Z :=
  match v with
  | PInt z => Some z
  | PBool b => Some (if b then 1 else 0)%Z
  | _ => None
  end.

(** [a == b] on scalars: [True == 1] and [False == 0] hold in Python. *)
Definition scalar_eq (a b : PyVal) : bool :=
  match a, b with
  | PNone, PNone => true
  | PStr s, PStr t => String.eqb s t
  | _, _ =>
      match as_int a, as_int b with
      | Some x, Some y => Z.eqb x y
      | _, _ => false
      end
  end.

(** [v == 'literal'] *)
Definition eq_str (v : PyVal) (s : string) : bool := scalar_eq v (PStr s).

(** [k in s] on two strings: [k] occurs in [s]. On UTF-8 an occurrence of
    the bytes is an occurrence of the code points. *)
Fixpoint substring_of (k s : string) : bool :=
  String.prefix k s
  || match s with
     | EmptyString => false
     | String _ s' => substring_of k s'
     end.

(** A string holds the UTF-8 encoding of a Python [str]; Python indexes,
    iterates and measures a [str] by code point. A continuation byte is
    [10xxxxxx]; a code point is a byte with the continuation bytes that
    follow it. *)
Definition is_continuation (c : Ascii.ascii) : bool :=
  match c with
  | Ascii.Ascii _ _ _ _ _ _ b6 b7 => b7 && negb b6
  end.

Definition starts_with_continuation (s : string) : bool :=
  match s with
  | String c _ => is_continuation c
  | EmptyString => false
  end.

Fixpoint code_points (s : string) : list string :=
  match s with
  | EmptyString => []
  | String c s' =>
      if starts_with_continuation s'
      then match code_points s' with
           | p :: ps => String c p :: ps
           | [] => [String c EmptyString]
           end
      else String c EmptyString :: code_points s'
  end.

(** The characters of a [str], each a [str] of length one. *)
Definition chars (s : string) : list PyVal := map PStr (code_points s).

Definition dict_find (k : PyVal) (d : list (PyVal * PyVal)) : option PyVal :=
  snd <$> List.find (fun kv => scalar_eq (fst kv) k) d.

(** ['k' in v] for a string literal ['k'] *)
Definition py_contains (k : string) (v : PyVal) : Res bool :=
  match v with
  | PDict d => Ok (bool_decide (is_Some (dict_find (PStr k) d)))
  | PList l => Ok (existsb (fun x => eq_str x k) l)
  | PStr s => Ok (substring_of k s)
  | PNone | PBool _ | PInt _ => Raise TypeError
  end.

Definition seq_index {A} (l : list A) (i : Z) : option A :=
  let n := Z.of_nat (length l) in
  let j := if (i <? 0)%Z then (i + n)%Z else i in
  if (j <? 0)%Z then None else l !! Z.to_nat j.

(** [v[k]] *)
Definition py_getitem (v k : PyVal) : Res PyVal :=
  match v with
  | PDict d =>
      if hashable k
      then match dict_find k d with
           | Some x => Ok x
           | None => Raise KeyError
           end
      else Raise TypeError
  | PList l =>
      match as_int k with
      | Some i => match seq_index l i with
                  | Some x => Ok x
                  | None => Raise IndexError
                  end
      | None => Raise TypeError
      end
  | PStr s =>
      match as_int k with
      | Some i => match seq_index (chars s) i with
                  | Some x => Ok x
                  | None => Raise IndexError
                  end
      | None => Raise TypeError
      end
  | PNone | PBool _ | PInt _ => Raise TypeError
  end.

(** The elements a [for] loop (or [list(..)], [dict(..)]) draws from [v]. *)
Definition py_iter (v : PyVal) : Res (list PyVal) :=
  match v with
  | PDict d => Ok (map fst d)
  | PList l => Ok l
  | PStr s => Ok (chars s)
  | PNone | PBool _ | PInt _ => Raise TypeError
  end.

(** [len(v)] *)
Definition py_len (v : PyVal) : Res nat :=
  match v with
  | PDict d => Ok (length d)
  | PList l => Ok (length l)
  | PStr s => Ok (length (code_points s))
  | PNone | PBool _ | PInt _ => Raise TypeError
  end.

(** [list(v)] *)
Definition py_list (v : PyVal) : Res PyVal :=
  l <- py_iter v ;; Ok (PList l).

Fixpoint dict_set (k x : PyVal) (d : list (PyVal * PyVal)) : list (PyVal * PyVal) :=
  match d with
  | [] => [(k, x)]
  | (k', x') :: rest =>
      if scalar_eq k' k then (k', x) :: rest else (k', x') :: dict_set k x rest
  end.

Fixpoint dict_update (items : list PyVal) (d : list (PyVal * PyVal))
  : Res (list (PyVal * PyVal)) :=
  match items with
  | [] => Ok d
  | item :: rest =>
      kv <- py_iter item ;;
      match kv with
      | [k; x] =>
          if hashable k then dict_update rest (dict_set k x d) else Raise TypeError
      | _ => Raise ValueError
      end
  end.

(** [dict(v)]: a mapping is copied, any other iterable must yield pairs. *)
Definition py_dict (v : PyVal) : Res PyVal :=
  match v with
  | PDict d => Ok (PDict d)
  | _ => items <- py_iter v ;; d <- dict_update items [] ;; Ok (PDict d)
  end.

(** The object under construction: its attribute dictionary. *)
Abbreviation Attrs := (gmap string PyVal).

Definition setattr (name : string) (v : PyVal) (self : Attrs) : Attrs :=
  <[name := v]> self.

Definition getattr (self : Attrs) (name : string) : option PyVal := self !! name.

(** [if 'k' in sub_dict: body] *)
Definition if_in (k : string) (sub_dict : PyVal) (body : Attrs -> Res Attrs)
    (self : Attrs) : Res Attrs :=
  b <- py_contains k sub_dict ;;
  if b then body self else Ok self.

(** [self.attr = sub_dict['k']] *)
Definition assign_item (attr : string) (sub_dict : PyVal) (k : string)
    (self : Attrs) : Res Attrs :=
  v <- py_getitem sub_dict (PStr k) ;;
  Ok (setattr attr v self).

Notation "f >=> g" := (fun self => bind (f self) g)
  (at level 60, right associativity).

Section Loader.

(** What [eval] can reach at line 133: it runs in the frame of
    [_set_data_source_settings], whose local names are [self],
    [settings_json] and [sub_dict]. The expression cannot rebind these
    names, but it can assign attributes of [self] and change the two
    dictionaries in place. The frame holds the three values; [sub_dict] is
    the object [settings_json['data_source']], and since the loader reads
    after line 133 only [sub_dict] and, in the next method, the
    ['matching_policy'] item of [settings_json], both are kept as [eval]
    left them. The class [JsonSettings] and the built-ins the loader calls
    are taken to be the same before and after the evaluation. *)
Record Frame : Type := mkFrame {
  fr_self : Attrs;
  fr_settings_json : PyVal;
  fr_sub_dict : PyVal }.

(** The interpreter's [eval] built-in on a string, in a frame: it raises,
    or returns a value and the frame as the evaluation left it. The helpers
    of [esgmatching.file_reader.file_utils] read the file system. *)
Variable py_eval : string -> Frame -> Res (PyVal * Frame).
Variable file_exists : string -> bool.
Variable get_extension : string -> string.
Variable read_json_file : string -> Res PyVal.

(** [eval(v)]: only a string is evaluated here. *)
Definition builtin_eval (v : PyVal) (fr : Frame) : Res (PyVal * Frame) :=
  match v with
  | PStr s => py_eval s fr
  | _ => Raise TypeError
  end.

Definition _set_file_processing_settings (settings_json : PyVal) (self : Attrs)
  : Res Attrs :=
  b <- py_contains "file_processing" settings_json ;;
  if b then
    sub_dict <- py_getitem settings_json (PStr "file_processing") ;;
    (if_in "file_path" sub_dict (assign_item "file_path" sub_dict "file_path")
     >=> if_in "file_extension_pattern" sub_dict
           (assign_item "file_extension_pattern" sub_dict "file_extension_pattern")
     >=> if_in "filename_pattern" sub_dict
           (assign_item "file_path" sub_dict "file_path")
     >=> if_in "encoding" sub_dict (assign_item "file_encoding" sub_dict "encoding")
     >=> if_in "separator" sub_dict (assign_item "file_separator" sub_dict "separator"))
      self
  else Ok self.

(** [value_dict = dict(sub_dict['k']); if len(value_dict) > 0: self.attr =
    value_dict else: raise exn] *)
Definition assign_nonempty_dict (attr : string) (sub_dict : PyVal) (k : string)
    (exn : Exn) (self : Attrs) : Res Attrs :=
  x <- py_getitem sub_dict (PStr k) ;;
  value_dict <- py_dict x ;;
  n <- py_len value_dict ;;
  if decide (0 < n) then Ok (setattr attr value_dict self) else Raise exn.

(** Lines 128-131 of [_set_data_source_settings]: the two branches before
    the one that calls [eval]. *)
Definition data_source_names (sub_dict : PyVal) : Attrs -> Res Attrs :=
  if_in "name" sub_dict (assign_item "datasource_name" sub_dict "name")
  >=> if_in "table_name" sub_dict
        (assign_item "datasource_table_name" sub_dict "table_name").

(** Lines 132-133: [if 'create_table' in sub_dict:
    self.datasource_create_table = eval(sub_dict['create_table'])]. The
    string is read and evaluated first; the attribute is then assigned on
    the object as the evaluation left it. *)
Definition eval_create_table (fr : Frame) : Res Frame :=
  b <- py_contains "create_table" (fr_sub_dict fr) ;;
  if b then
    x <- py_getitem (fr_sub_dict fr) (PStr "create_table") ;;
    r <- builtin_eval x fr ;;
    Ok (mkFrame (setattr "datasource_create_table" (fst r) (fr_self (snd r)))
          (fr_settings_json (snd r)) (fr_sub_dict (snd r)))
  else Ok fr.

(** Lines 134-171: the branches after the call of [eval]. *)
Definition data_source_checked (sub_dict : PyVal) : Attrs -> Res Attrs :=
  if_in "if_table_exists" sub_dict (fun self =>
    value_dict <- py_getitem sub_dict (PStr "if_table_exists") ;;
    if negb (eq_str value_dict "drop") && negb (eq_str value_dict "clean")
    then Raise IfTableExistsNotRecognized
    else Ok (setattr "datasource_if_table_exists" value_dict self))
  >=> if_in "primary_keys" sub_dict (fun self =>
        x <- py_getitem sub_dict (PStr "primary_keys") ;;
        value_dict <- py_list x ;;
        n <- py_len value_dict ;;
        if decide (0 < n)
        then Ok (setattr "datasource_primary_keys" value_dict self)
        else Ok self)
  >=> if_in "attributes" sub_dict (fun self =>
        value_dict <- py_getitem sub_dict (PStr "attributes") ;;
        n <- py_len value_dict ;;
        if decide (0 < n)
        then Ok (setattr "datasource_attributes" value_dict self)
        else Ok self)
  >=> if_in "matching_role" sub_dict (fun self =>
        value_dict <- py_getitem sub_dict (PStr "matching_role") ;;
        if negb (existsb (eq_str value_dict)
                   ["referential"; "target"; "matching"; "no-matching"])
        then Raise MatchingRoleNotRecognized
        else Ok (setattr "matching_role" value_dict self))
  >=> if_in "matching_id" sub_dict
        (assign_item "matching_id" sub_dict "matching_id")
  >=> if_in "matching_alias" sub_dict
        (assign_nonempty_dict "matching_alias" sub_dict "matching_alias"
           AliasMatchingNotDefined)
  >=> if_in "map_to_matching" sub_dict
        (assign_nonempty_dict "map_to_matching" sub_dict "map_to_matching"
           FieldsMappingToMatchingTableNotDefined)
  >=> if_in "map_indirect_matching" sub_dict
        (assign_nonempty_dict "map_indirect_matching" sub_dict
           "map_indirect_matching" FieldsMappingToMatchingTableNotDefined).

(** The method returns the object and the settings dictionary as it leaves
    them: the caller goes on with both. *)
Definition _set_data_source_settings (settings_json : PyVal) (self : Attrs)
  : Res (Attrs * PyVal) :=
  b <- py_contains "data_source" settings_json ;;
  if b then
    sub_dict <- py_getitem settings_json (PStr "data_source") ;;
    self <- data_source_names sub_dict self ;;
    fr <- eval_create_table (mkFrame self settings_json sub_dict) ;;
    self <- data_source_checked (fr_sub_dict fr) (fr_self fr) ;;
    Ok (self, fr_settings_json fr)
  else Raise DataSourceSettingsNotDefined.

(** [if 'k' in policy_dict: rules_dict = policy_dict['k'];
     if len(rules_dict) == 0: raise exn] *)
Definition check_rules (k : string) (policy_dict : PyVal) (exn : Exn)
  : Res unit :=
  b <- py_contains k policy_dict ;;
  if b then
    rules_dict <- py_getitem policy_dict (PStr k) ;;
    n <- py_len rules_dict ;;
    if decide (n = 0) then Raise exn else Ok tt
  else Ok tt.

(** The body of [for policy_name in sub_dict]. *)
Fixpoint check_policies (sub_dict : PyVal) (names : list PyVal) : Res unit :=
  match names with
  | [] => Ok tt
  | policy_name :: rest =>
      policy_dict <- py_getitem sub_dict policy_name ;;
      _ <- check_rules "dfm" policy_dict DfmRulesEmptyInMatchingPolicy ;;
      _ <- check_rules "drm" policy_dict DrmRulesEmptyInMatchingPolicy ;;
      _ <- check_rules "ifm" policy_dict IfmRulesEmptyInMatchingPolicy ;;
      check_policies sub_dict rest
  end.

Definition _set_matching_policy_settings (settings_json : PyVal) (self : Attrs)
  : Res Attrs :=
  b <- py_contains "matching_policy" settings_json ;;
  if b then
    sub_dict <- py_getitem settings_json (PStr "matching_policy") ;;
    n <- py_len sub_dict ;;
    if decide (n = 0) then Raise MatchingPolicyEmpty
    else
      names <- py_iter sub_dict ;;
      _ <- check_policies sub_dict names ;;
      Ok (setattr "matching_policy" sub_dict self)
  else Ok self.

(** The attribute defaults that [__init__] assigns first. *)
Definition defaults : Attrs :=
  setattr "matching_policy" PNone
  (setattr "map_indirect_matching" PNone
  (setattr "map_to_matching" PNone
  (setattr "matching_alias" PNone
  (setattr "matching_id" (PStr "")
  (setattr "matching_role" (PStr "target")
  (setattr "datasource_attributes" PNone
  (setattr "datasource_primary_keys" PNone
  (setattr "datasource_if_table_exists" (PStr "drop")
  (setattr "datasource_create_table" (PBool true)
  (setattr "datasource_table_name" (PStr "unknown")
  (setattr "datasource_name" (PStr "unknown")
  (setattr "file_separator" (PStr ";")
  (setattr "file_encoding" (PStr "utf-8")
  (setattr "filename_pattern" (PStr "")
  (setattr "file_extension_pattern" (PStr "")
  (setattr "file_path" (PStr "") ∅)))))))))))))))).

(** [JsonSettings(json_settings)]: the three methods receive the one
    dictionary [dict_json], the last as the second left it. *)
Definition __init__ (json_settings : string) : Res Attrs :=
  let self := defaults in
  self <- (if file_exists json_settings
           then Ok (setattr "_filename_settings" (PStr json_settings) self)
           else Raise FileSettingsDoesNotExist) ;;
  if negb (String.eqb (get_extension json_settings) ".json")
  then Raise FileSettingsIsNotAJsonFile
  else
    dict_json <- read_json_file json_settings ;;
    self <- _set_file_processing_settings dict_json self ;;
    r <- _set_data_source_settings dict_json self ;;
    _set_matching_policy_settings (snd r) (fst r).

(** The string that the data source section of the settings hands to
    [eval]. *)
Definition create_table_string (settings_json : PyVal) (s : string) : Prop :=
  exists sub_dict,
    py_getitem settings_json (PStr "data_source") = Ok sub_dict
    /\ py_getitem sub_dict (PStr "create_table") = Ok (PStr s).

(** Evaluating the ['create_table'] string of the settings, where they have
    one, leaves the attribute [name] of the object as it was. *)
Definition eval_keeps_attr (settings_json : PyVal) (name : string) : Prop :=
  forall s fr v fr',
    create_table_string settings_json s ->
    py_eval s fr = Ok (v, fr') ->
    getattr (fr_self fr') name = getattr (fr_self fr) name.

(** Evaluating the ['create_table'] string of the settings, where they have
    one, has no side effect: it leaves the object and the two dictionaries
    as they were. *)
Definition eval_is_pure (settings_json : PyVal) : Prop :=
  forall s fr v fr',
    create_table_string settings_json s ->
    py_eval s fr = Ok (v, fr') ->
    fr' = fr.

End Loader.

(** A step [f] leaves the attribute [name] as it found it. *)
Definition preserves (name : string) (f : Attrs -> Res Attrs) : Prop :=
  forall self self', f self = Ok self' -> getattr self' name = getattr self name.







(** *** Sample environments

    [sample_eval] agrees with Python's [eval] on the strings [True],
    [False], [1], [true], [false] and [setattr(self, 'filename_pattern',
    'x')], the only ones the samples hand it: the first three are
    expressions without a side effect, the lowercase names are not defined,
    and the call of [setattr] assigns the attribute and returns [None].
    [sample_read] serves the settings files. *)

Definition sample_eval (s : string) (fr : Frame) : Res (PyVal * Frame) :=
  if String.eqb s "True" then Ok (PBool true, fr)
  else if String.eqb s "False" then Ok (PBool false, fr)
  else if String.eqb s "1" then Ok (PInt 1, fr)
  else if String.eqb s "setattr(self, 'filename_pattern', 'x')"
  then Ok (PNone,
           mkFrame (setattr "filename_pattern" (PStr "x") (fr_self fr))
             (fr_settings_json fr) (fr_sub_dict fr))
  else Raise NameError.

(** A JSON object as [json.load] returns it: a dictionary with string
    keys. *)
Definition obj (items : list (string * PyVal)) : PyVal :=
  PDict (map (fun kv => (PStr (fst kv), snd kv)) items).

(** A settings file with the file processing and data source sections and
    no matching policy. *)
Definition sample_settings (create_table : string) : PyVal :=
  obj [("file_processing",
          obj [("file_path", PStr "/data/in"); ("filename_pattern", PStr "ref_*.csv")]);
       ("data_source",
          obj [("name", PStr "ref"); ("create_table", PStr create_table)])].

Definition sample_read (json_settings : string) : Res PyVal :=
  if String.eqb json_settings "lower.json"
  then Ok (obj [("data_source", obj [("create_table", PStr "true")])])
  else if String.eqb json_settings "assigns.json"
  then Ok (obj [("file_processing", obj [("file_path", PStr "/data/in")]);
                ("data_source",
                   obj [("create_table",
                         PStr "setattr(self, 'filename_pattern', 'x')")])])
  else if String.eqb json_settings "no_source.json"
  then Ok (obj [("matching_policy", obj [("p", obj [("drm", obj [("r", PList [PStr "isin"])])])])])
  else Ok (sample_settings "1").

(** [JsonSettings(..)] where every file exists and has the extension
    [.json]. *)
Definition sample_init : string -> Res Attrs :=
  __init__ sample_eval (fun _ => true) (fun _ => ".json") sample_read.

(** Settings with every section, a file processing section that has a
    pattern but no path, and a data source section alone. *)
Definition full_settings : PyVal :=
  obj [("file_processing",
          obj [("file_path", PStr "/data/ref.csv"); ("encoding", PStr "latin-1")]);
       ("data_source",
          obj [("name", PStr "ref"); ("table_name", PStr "REF");
               ("create_table", PStr "True"); ("if_table_exists", PStr "clean");
               ("primary_keys", PList [PStr "isin"]);
               ("matching_role", PStr "referential");
               ("matching_id", PStr "isin");
               ("matching_alias", obj [("isin_alias", PStr "isin")])]);
       ("matching_policy",
          obj [("policy", obj [("drm", obj [("by_isin", PList [PStr "isin_alias"])])])])].

Definition extra_read (json_settings : string) : Res PyVal :=
  if String.eqb json_settings "pattern_only.json"
  then Ok (obj [("file_processing", obj [("filename_pattern", PStr "ref_*.csv")]);
                ("data_source", obj [])])
  else if String.eqb json_settings "source_only.json"
  then Ok (obj [("data_source", obj [("name", PStr "ref")])])
  else Ok full_settings.

Definition extra_init : string -> Res Attrs :=
  __init__ sample_eval (fun _ => true) (fun _ => ".json") extra_read.

End Settings.

(** ** Part II: [DbMatcherDrm] (drm.py) *)

Module Matcher.

(** Exception classes: [DirectResidualMatchingNotInPolicy] is the one
    [drm.py] raises; the others belong to the collaborators modelled below. *)
Inductive Exn : Type :=
| DirectResidualMatchingNotInPolicy
| AliasNotFound (alias : string)
| ColumnNotFound (table column : string)
| EmptyCondition
| SelectWithoutFrom
| DeleteWithoutCondition
| ColumnCountMismatch
| NoSuchTable (table : string).

Abbreviation Res := (Result Exn).

(** [d.get(k)] on a dictionary kept as a list of items in insertion order. *)
Definition assoc {A} (k : string) (d : list (string * A)) : option A :=
  snd <$> List.find (fun kv => String.eqb (fst kv) k) d.

(** *** SQL expressions and statements *)

Record Column : Type := mkColumn { col_table : string; col_name : string }.

(** An output column of a select: a table column, a table column under a
    label, or a labelled literal. *)
Inductive SelectItem : Type :=
| ColRef (c : Column)
| Labelled (c : Column) (label : string)
| Literal (value label : string).

Inductive Condition : Type :=
| EqualCols (l r : Column)
| EqualValue (c : Column) (v : string)
| And (a b : Condition).

Record SelectStm : Type := mkSelect {
  sel_cols : list SelectItem;
  sel_from : string;
  sel_joins : list (string * Condition);
  sel_where : option Condition }.

Record DeleteStm : Type := mkDelete {
  del_from : string;
  del_col : Column;
  del_in : SelectStm }.

Inductive Statement : Type :=
| InsertFromSelect (table : string) (cols : list Column) (select : SelectStm)
| DeleteWhereIn (d : DeleteStm).

(** The name under which a select item is known: a column's own name, or
    the label given to a column or to a literal. *)
Definition item_name (i : SelectItem) : string :=
  match i with
  | ColRef c => col_name c
  | Labelled _ label => label
  | Literal _ label => label
  end.

(** The equality leaves of a condition, left to right. *)
Fixpoint leaves (c : Condition) : list Condition :=
  match c with
  | And a b => leaves a ++ leaves b
  | _ => [c]
  end.

(** A condition that is one leaf. *)
Definition is_leaf (c : Condition) : Prop :=
  match c with
  | And _ _ => False
  | _ => True
  end.

(** *** The condition builder *)

(** Modelled from the spec: the condition builder class is absent from the
    sources; section 4.1 gives its contract. A builder is empty or holds
    the condition built so far. *)
Definition ConditionBuilder : Type := option Condition.

(** Modelled from the spec: [create_condition] of the absent builder
    returns it in the empty state. *)
Definition create_condition (b : ConditionBuilder) : ConditionBuilder := None.

(** Modelled from the spec: a leaf added to the absent builder when it
    holds a condition is conjoined with it, not written over it. *)
Definition add_leaf (b : ConditionBuilder) (leaf : Condition) : ConditionBuilder :=
  match b with
  | None => Some leaf
  | Some c => Some (And c leaf)
  end.

(** Modelled from the spec: [equal_cols] of the absent builder adds the
    equality of two columns. *)
Definition equal_cols (b : ConditionBuilder) (l r : Column) : ConditionBuilder :=
  add_leaf b (EqualCols l r).

(** Modelled from the spec: [equal_value] of the absent builder adds the
    equality of a column and a constant. *)
Definition equal_value (b : ConditionBuilder) (c : Column) (v : string)
  : ConditionBuilder :=
  add_leaf b (EqualValue c v).

(** Modelled from the spec: [and_condition] of the absent builder conjoins
    a finished condition with the builder's. *)
Definition and_condition (b : ConditionBuilder) (condition : Condition)
  : ConditionBuilder :=
  match b with
  | None => Some condition
  | Some c => Some (And c condition)
  end.

(** Modelled from the spec: [get_condition] of the absent builder returns
    the condition built; on an empty builder it is an error. *)
Definition get_condition (b : ConditionBuilder) : Res Condition :=
  match b with
  | Some c => Ok c
  | None => Raise EmptyCondition
  end.

(** *** The query builders *)

(** Modelled from the spec: the select builder class is absent; section 4.2
    gives its contract. The builder holds what the calls since the last
    [create_select] have set. *)
Record SelectBuilder : Type := mkSelectBuilder {
  sb_cols : list SelectItem;
  sb_from : option string;
  sb_joins : list (string * option Condition);
  sb_where : option Condition }.

(** Modelled from the spec: [create_select] of the absent builder starts a
    select over the given columns and resets what the builder held. *)
Definition create_select (b : SelectBuilder) (cols : list SelectItem)
  : SelectBuilder :=
  mkSelectBuilder cols None [] None.

(** Modelled from the spec: [from_table] of the absent builder sets the
    primary source. *)
Definition from_table (b : SelectBuilder) (table : string) : SelectBuilder :=
  mkSelectBuilder (sb_cols b) (Some table) (sb_joins b) (sb_where b).

(** Modelled from the spec: [join_table] of the absent builder opens an
    inner join with a table; joins chain. *)
Definition join_table (b : SelectBuilder) (table : string) : SelectBuilder :=
  mkSelectBuilder (sb_cols b) (sb_from b) (sb_joins b ++ [(table, None)])
    (sb_where b).

(** Modelled from the spec: the last join opened receives the condition. *)
Fixpoint close_join (joins : list (string * option Condition))
    (condition : option Condition) : list (string * option Condition) :=
  match joins with
  | [] => []
  | [(t, _)] => [(t, condition)]
  | j :: rest => j :: close_join rest condition
  end.

(** Modelled from the spec: [join_on] of the absent builder restricts the
    join just opened by a condition ([None] where Python passes [None]). *)
Definition join_on (b : SelectBuilder) (condition : option Condition)
  : SelectBuilder :=
  mkSelectBuilder (sb_cols b) (sb_from b) (close_join (sb_joins b) condition)
    (sb_where b).

(** Modelled from the spec: [where_condition] of the absent builder adds a
    filter. *)
Definition where_condition (b : SelectBuilder) (condition : Condition)
  : SelectBuilder :=
  mkSelectBuilder (sb_cols b) (sb_from b) (sb_joins b)
    (match sb_where b with
     | None => Some condition
     | Some w => Some (And w condition)
     end).

(** Modelled from the spec: a join left without a condition cannot be
    built. *)
Definition build_join (j : string * option Condition) : Res (string * Condition) :=
  match snd j with
  | Some c => Ok (fst j, c)
  | None => Raise EmptyCondition
  end.

(** Modelled from the spec: [build_statement] of the absent select builder
    returns the statement; before the source is set it is an error. *)
Definition build_statement (b : SelectBuilder) : Res SelectStm :=
  match sb_from b with
  | None => Raise SelectWithoutFrom
  | Some t =>
      joins <- mapM build_join (sb_joins b) ;;
      Ok (mkSelect (sb_cols b) t joins (sb_where b))
  end.

(** Modelled from the spec: the delete builder class is absent; section 4.2
    has it delete from a table the rows whose key is among those a subquery
    selects. *)
Record DeleteBuilder : Type := mkDeleteBuilder {
  db_from : option string;
  db_where_in : option (Column * SelectStm) }.

(** Modelled from the spec: [create_delete] of the absent builder resets
    it. *)
Definition create_delete (b : DeleteBuilder) : DeleteBuilder :=
  mkDeleteBuilder None None.

(** Modelled from the spec: [from_table] of the absent delete builder sets
    the table to delete from. *)
Definition delete_from_table (b : DeleteBuilder) (table : string) : DeleteBuilder :=
  mkDeleteBuilder (Some table) (db_where_in b).

(** Modelled from the spec: [where_in_condition] of the absent delete
    builder sets the key column and the subquery. *)
Definition where_in_condition (b : DeleteBuilder) (col : Column)
    (select : SelectStm) : DeleteBuilder :=
  mkDeleteBuilder (db_from b) (Some (col, select)).

(** Modelled from the spec: [build_statement] of the absent delete builder
    returns the statement once the table and the condition are set. *)
Definition build_delete_statement (b : DeleteBuilder) : Res DeleteStm :=
  match db_from b, db_where_in b with
  | Some t, Some (col, select) => Ok (mkDelete t col select)
  | None, _ => Raise SelectWithoutFrom
  | _, None => Raise DeleteWithoutCondition
  end.

(** *** The database

    A row maps column names to values, a missing column being SQL's NULL; a
    table is the list of its rows; the database maps table names to
    tables. *)
Definition Row : Type := list (string * string).
Definition Table : Type := list Row.
Definition Database : Type := list (string * Table).

Definition get_table (db : Database) (t : string) : Res Table :=
  match assoc t db with
  | Some rows => Ok rows
  | None => Raise (NoSuchTable t)
  end.

Fixpoint set_table (t : string) (rows : Table) (db : Database) : Database :=
  match db with
  | [] => []
  | (t', rows') :: rest =>
      if String.eqb t' t then (t', rows) :: rest
      else (t', rows') :: set_table t rows rest
  end.

(** The rows in scope while a joined row is examined: one per table. *)
Definition Env : Type := list (string * Row).

Definition lookup_col (env : Env) (c : Column) : option string :=
  match assoc (col_table c) env with
  | Some r => assoc (col_name c) r
  | None => None
  end.

(** SQL's [=] is true only between two values: NULL equals nothing. *)
Definition sql_eq (a b : option string) : bool :=
  match a, b with
  | Some x, Some y => String.eqb x y
  | _, _ => false
  end.

(** A row is kept by ON or WHERE when the condition is true of it. *)
Fixpoint holds (env : Env) (c : Condition) : bool :=
  match c with
  | EqualCols l r => sql_eq (lookup_col env l) (lookup_col env r)
  | EqualValue col v => sql_eq (lookup_col env col) (Some v)
  | And a b => holds env a && holds env b
  end.

Definition holds_opt (env : Env) (c : option Condition) : bool :=
  match c with
  | Some c => holds env c
  | None => true
  end.

Definition eval_item (env : Env) (i : SelectItem) : option string :=
  match i with
  | ColRef c => lookup_col env c
  | Labelled c _ => lookup_col env c
  | Literal v _ => Some v
  end.

(** Inner joins, in order: each extends the joined rows by the rows of its
    table that satisfy its ON condition. *)
Fixpoint join_envs (db : Database) (envs : list Env)
    (joins : list (string * Condition)) : Res (list Env) :=
  match joins with
  | [] => Ok envs
  | (t, on) :: rest =>
      rows <- get_table db t ;;
      join_envs db
        (flat_map (fun env =>
           List.filter (fun env' => holds env' on)
             (map (fun r => env ++ [(t, r)]) rows)) envs)
        rest
  end.

Definition selected_envs (db : Database) (s : SelectStm) : Res (list Env) :=
  rows <- get_table db (sel_from s) ;;
  envs <- join_envs db (map (fun r => [(sel_from s, r)]) rows) (sel_joins s) ;;
  Ok (List.filter (fun env => holds_opt env (sel_where s)) envs).

Definition run_select (db : Database) (s : SelectStm)
  : Res (list (list (option string))) :=
  envs <- selected_envs db s ;;
  Ok (map (fun env => map (eval_item env) (sel_cols s)) envs).

(** The row an insert stores: the n-th value under the n-th target column,
    NULLs left out. *)
Fixpoint make_row (names : list string) (values : list (option string)) : Row :=
  match names, values with
  | n :: names', Some v :: values' => (n, v) :: make_row names' values'
  | _ :: names', None :: values' => make_row names' values'
  | _, _ => []
  end.

(** Modelled from the spec: the DML manager is absent. Section 4.2 has
    [insertFromSelect] reject a column count that differs from the select's
    before it executes, and store the n-th selected value under the n-th
    target column. Returns the new database and the number of rows
    inserted. *)
Definition exec_insert (db : Database) (table : string) (cols : list Column)
    (select : SelectStm) : Res (Database * nat) :=
  if negb (Nat.eqb (length cols) (length (sel_cols select)))
  then Raise ColumnCountMismatch
  else
    tuples <- run_select db select ;;
    old <- get_table db table ;;
    let new := map (make_row (map col_name cols)) tuples in
    Ok (set_table table (old ++ new) db, length new).

(** The key equals the first value of some selected tuple. *)
Definition key_in (k : option string) (tuples : list (list (option string)))
  : bool :=
  existsb (fun tuple => match tuple with
                        | v :: _ => sql_eq k v
                        | [] => false
                        end) tuples.

(** Modelled from the spec: the DML manager is absent. Section 4.2 has
    [deleteWhereIn] remove the rows whose key is among the keys the
    subquery selects. Returns the new database and the number of rows
    deleted. *)
Definition exec_delete (db : Database) (d : DeleteStm) : Res (Database * nat) :=
  keys <- run_select db (del_in d) ;;
  rows <- get_table db (del_from d) ;;
  let kept :=
    List.filter (fun r => negb (key_in (assoc (col_name (del_col d)) r) keys)) rows in
  Ok (set_table (del_from d) kept db, length rows - length kept).

(** Modelled from the spec: the absent DML manager, as the database it
    writes to and the log of the statements it has executed, each with the
    number of rows it affected. *)
Record DmlManager : Type := mkDml {
  database : Database;
  executed : list (Statement * nat) }.

(** *** Data sources and the policy *)

(** Modelled from the spec: the datasource descriptor class is absent;
    section 3 gives its data: the name, the table, [matching_alias] from
    alias to column name, [map_to_matching] from matching-table column name
    to this source's column name, and [matching_id]. *)
Record DataSource : Type := mkSource {
  name : string;
  table_name : string;
  columns : list string;
  matching_alias : list (string * string);
  map_to_matching : list (string * string);
  matching_id : string }.

(** Modelled from the spec: the absent descriptor resolves an alias to the
    name of its column; an alias it does not hold is a configuration
    error. *)
Definition get_matching_attribute_by_alias (ds : DataSource) (alias : string)
  : Res string :=
  match assoc alias (matching_alias ds) with
  | Some col => Ok col
  | None => Raise (AliasNotFound alias)
  end.

(** Modelled from the spec: the absent descriptor resolves a column name
    to the column of its table; a name the table does not have is a
    configuration error. *)
Definition get_table_column (ds : DataSource) (col : string) : Res Column :=
  if existsb (String.eqb col) (columns ds)
  then Ok (mkColumn (table_name ds) col)
  else Raise (ColumnNotFound (table_name ds) col).

(** Modelled from the spec: the absent descriptor resolves an alias to
    the column of its table. *)
Definition get_table_column_by_alias (ds : DataSource) (alias : string)
  : Res Column :=
  col <- get_matching_attribute_by_alias ds alias ;;
  get_table_column ds col.

(** Modelled from the spec: the matching-table column names that the
    absent descriptor maps columns to (the keys of [map_to_matching]). *)
Definition get_name_cols_mapped_to_matching (ds : DataSource) : list string :=
  map fst (map_to_matching ds).

(** Modelled from the spec: the columns of its table that the absent
    descriptor maps to the matching table (the values of
    [map_to_matching]), in the order of the names, each under the name of
    the matching-table column it is mapped to: the docstring of
    [_get_cols_match] has the names returned beside the columns be the
    names of these columns. *)
Definition get_db_cols_mapped_to_matching (ds : DataSource)
  : Res (list SelectItem) :=
  mapM (fun kv => c <- get_table_column ds (snd kv) ;; Ok (Labelled c (fst kv)))
    (map_to_matching ds).

(** Modelled from the spec: the columns of the absent descriptor's table
    that bear the given names, in their order. *)
Definition get_db_cols_with_same_name (ds : DataSource) (names : list string)
  : Res (list Column) :=
  mapM (get_table_column ds) names.

(** Modelled from the spec: the policy class is absent; section 3 has it map
    a matching-type tag to its rules, each a name and an ordered list of
    aliases. *)
Definition MatchingPolicy : Type := list (string * list (string * list string)).

(** Modelled from the spec: the rules the absent policy holds for a tag,
    none if the tag is absent (section 4.3). *)
Definition get_rules (policy : MatchingPolicy) (matching_type : string)
  : list (string * list string) :=
  default [] (assoc matching_type policy).

(** Modelled from the spec: [has_rule_type] of the absent policy tells
    whether any rule exists for the tag (section 4.3). *)
Definition has_rule_type (policy : MatchingPolicy) (matching_type : string)
  : bool :=
  match get_rules policy matching_type with
  | [] => false
  | _ :: _ => true
  end.

(** *** The matcher

    The attributes a run reads and never assigns. [__init__] fixes the three
    literals; the base class binds the sources and the rules. *)
Record DbMatcherDrm : Type := mkMatcher {
  _matching_type : string;
  _literal_matching_type : string;
  _literal_matching_scope : string;
  _tgt_source : DataSource;
  _ref_source : DataSource;
  _matching_source : DataSource;
  _no_matching_source : DataSource;
  _matching_rules : list (string * list string) }.

Definition __init__ (tgt ref matching no_matching : DataSource)
    (rules : list (string * list string)) : DbMatcherDrm :=
  mkMatcher "drm" "direct" "residual" tgt ref matching no_matching rules.

(** The attributes a run assigns: the four builders, and the DML manager
    with the database behind it. *)
Record State : Type := mkState {
  _join_condition_builder : ConditionBuilder;
  _where_condition_builder : ConditionBuilder;
  _select_builder : SelectBuilder;
  _delete_builder : DeleteBuilder;
  _dml_manager : DmlManager }.

(** A method: it reads and updates the state and returns or raises; what
    it assigned before raising stays assigned. *)
Definition M (A : Type) : Type := State -> Res A * State.

Definition ret {A} (a : A) : M A := fun st => (Ok a, st).

Definition raise {A} (e : Exn) : M A := fun st => (Raise e, st).

Definition lift {A} (r : Res A) : M A := fun st => (r, st).

Definition mbind {A B} (m : M A) (k : A -> M B) : M B :=
  fun st =>
    match m st with
    | (Ok a, st') => k a st'
    | (Raise e, st') => (Raise e, st')
    end.

Notation "x <~ m ;; k" := (mbind m (fun x => k))
  (at level 100, m at next level, right associativity).
Notation "m ;;; k" := (mbind m (fun _ => k))
  (at level 100, right associativity).

Definition set_join_condition_builder (b : ConditionBuilder) : M unit :=
  fun st => (Ok tt, mkState b (_where_condition_builder st) (_select_builder st)
                      (_delete_builder st) (_dml_manager st)).

Definition set_where_condition_builder (b : ConditionBuilder) : M unit :=
  fun st => (Ok tt, mkState (_join_condition_builder st) b (_select_builder st)
                      (_delete_builder st) (_dml_manager st)).

Definition set_select_builder (b : SelectBuilder) : M unit :=
  fun st => (Ok tt, mkState (_join_condition_builder st)
                      (_where_condition_builder st) b (_delete_builder st)
                      (_dml_manager st)).

Definition set_delete_builder (b : DeleteBuilder) : M unit :=
  fun st => (Ok tt, mkState (_join_condition_builder st)
                      (_where_condition_builder st) (_select_builder st) b
                      (_dml_manager st)).

Definition set_dml_manager (d : DmlManager) : M unit :=
  fun st => (Ok tt, mkState (_join_condition_builder st)
                      (_where_condition_builder st) (_select_builder st)
                      (_delete_builder st) d).

Definition gets {A} (f : State -> A) : M A := fun st => (Ok (f st), st).

(** Modelled from the spec: the absent DML manager's
    [insert_into_from_select(table, cols, select)], on the matcher's
    state. *)
Definition insert_into_from_select (table : string) (cols : list Column)
    (select : SelectStm) : M unit :=
  dml <~ gets _dml_manager ;;
  r <~ lift (exec_insert (database dml) table cols select) ;;
  set_dml_manager
    (mkDml (fst r) (executed dml ++ [(InsertFromSelect table cols select, snd r)])).

(** Modelled from the spec: the absent DML manager's
    [delete_data(delete_stm)], on the matcher's state. *)
Definition delete_data (delete_stm : DeleteStm) : M unit :=
  dml <~ gets _dml_manager ;;
  r <~ lift (exec_delete (database dml) delete_stm) ;;
  set_dml_manager
    (mkDml (fst r) (executed dml ++ [(DeleteWhereIn delete_stm, snd r)])).

Section Methods.

Variable self : DbMatcherDrm.

(** Modelled from the spec: the base class, absent, holds the table of the
    no-matching source it binds. *)
Definition _no_matching_table : string := table_name (_no_matching_source self).

(** Modelled from the spec: the base class, absent, holds the table of the
    referential source it binds. *)
Definition _ref_table : string := table_name (_ref_source self).

(** Modelled from the spec: the base class, absent, holds the table of the
    matching source it binds. *)
Definition _matching_table : string := table_name (_matching_source self).

(** Modelled from the spec: [_get_literal_cols_match] belongs to the absent
    base class; section 4.4 has the literal columns describe a match by its
    matching type and scope and the rule's name. Each is a literal labelled
    with its name. *)
Definition _get_literal_cols_match (rule_name : string)
  : list SelectItem * list string :=
  ([Literal (_literal_matching_type self) "matching_type";
    Literal (_literal_matching_scope self) "matching_scope";
    Literal rule_name "matching_rule"],
   ["matching_type"; "matching_scope"; "matching_rule"]).

Definition _can_matcher_be_used (policy : MatchingPolicy) : M unit :=
  if negb (has_rule_type policy (_matching_type self))
  then raise DirectResidualMatchingNotInPolicy
  else ret tt.

(** The [for alias_attribute in attribute_rules] loop, [join_condition]
    being the variable it carries. *)
Fixpoint _get_conditions_loop (attribute_rules : list string)
    (join_condition : option Condition) : M (option Condition) :=
  match attribute_rules with
  | [] => ret join_condition
  | alias_attribute :: rest =>
      tgt_col_name <~
        lift (get_matching_attribute_by_alias (_tgt_source self) alias_attribute) ;;
      left_db_col <~
        lift (get_table_column (_no_matching_source self) tgt_col_name) ;;
      right_db_col <~
        lift (get_table_column_by_alias (_ref_source self) alias_attribute) ;;
      b <~ gets _join_condition_builder ;;
      set_join_condition_builder
        (equal_cols (create_condition b) left_db_col right_db_col) ;;;
      match join_condition with
      | None =>
          b <~ gets _join_condition_builder ;;
          c <~ lift (get_condition b) ;;
          _get_conditions_loop rest (Some c)
      | Some jc =>
          b <~ gets _join_condition_builder ;;
          set_join_condition_builder (and_condition b jc) ;;;
          b <~ gets _join_condition_builder ;;
          c <~ lift (get_condition b) ;;
          _get_conditions_loop rest (Some c)
      end
  end.

Definition _get_conditions (attribute_rules : list string)
  : M (option Condition * Condition) :=
  join_condition <~ _get_conditions_loop attribute_rules None ;;
  let tgt_name := name (_tgt_source self) in
  tgt_db_name <~ lift (get_table_column (_no_matching_source self) "tgt_name") ;;
  b <~ gets _where_condition_builder ;;
  set_where_condition_builder (create_condition b) ;;;
  b <~ gets _where_condition_builder ;;
  set_where_condition_builder (equal_value b tgt_db_name tgt_name) ;;;
  b <~ gets _where_condition_builder ;;
  where_condition <~ lift (get_condition b) ;;
  ret (join_condition, where_condition).

Definition _get_cols_match (rule_name : string)
  : Res (list SelectItem * list string) :=
  let '(literal_db_cols, literal_name_cols) := _get_literal_cols_match rule_name in
  let no_match_name_cols := get_name_cols_mapped_to_matching (_tgt_source self) in
  no_match_db_cols <-
    get_db_cols_with_same_name (_no_matching_source self) no_match_name_cols ;;
  ref_db_cols <- get_db_cols_mapped_to_matching (_ref_source self) ;;
  let ref_name_cols := get_name_cols_mapped_to_matching (_ref_source self) in
  let select_db_cols :=
    literal_db_cols ++ map ColRef no_match_db_cols ++ ref_db_cols in
  let select_name_cols := literal_name_cols ++ no_match_name_cols ++ ref_name_cols in
  Ok (select_db_cols, select_name_cols).

(** The body of [for rule_key in self._matching_rules], [attribute_rules]
    being [self._matching_rules[rule_key]]. The second [create_select] is
    given the one column [col_matching_id_db]. *)
Definition execute_rule (rule_key : string) (attribute_rules : list string)
  : M unit :=
  cols <~ lift (_get_cols_match rule_key) ;;
  let '(select_db_cols, select_name_cols) := cols in
  conds <~ _get_conditions attribute_rules ;;
  let '(join_condition, where_cond) := conds in
  b <~ gets _select_builder ;;
  set_select_builder (create_select b select_db_cols) ;;;
  b <~ gets _select_builder ;;
  set_select_builder (from_table b _no_matching_table) ;;;
  b <~ gets _select_builder ;;
  set_select_builder (join_on (join_table b _ref_table) join_condition) ;;;
  b <~ gets _select_builder ;;
  set_select_builder (where_condition b where_cond) ;;;
  b <~ gets _select_builder ;;
  select_stm <~ lift (build_statement b) ;;
  matching_db_cols <~
    lift (get_db_cols_with_same_name (_matching_source self) select_name_cols) ;;
  insert_into_from_select _matching_table matching_db_cols select_stm ;;;
  let col_matching_id_name := matching_id (_no_matching_source self) in
  col_matching_id_db <~
    lift (get_table_column (_no_matching_source self) col_matching_id_name) ;;
  b <~ gets _select_builder ;;
  set_select_builder
    (where_condition
       (join_on
          (join_table
             (from_table (create_select b [ColRef col_matching_id_db])
                _no_matching_table)
             _ref_table)
          join_condition)
       where_cond) ;;;
  b <~ gets _select_builder ;;
  select_stm <~ lift (build_statement b) ;;
  b <~ gets _delete_builder ;;
  set_delete_builder
    (where_in_condition (delete_from_table (create_delete b) _no_matching_table)
       col_matching_id_db select_stm) ;;;
  b <~ gets _delete_builder ;;
  delete_stm <~ lift (build_delete_statement b) ;;
  delete_data delete_stm.

Fixpoint execute_rules (rules : list (string * list string)) : M unit :=
  match rules with
  | [] => ret tt
  | (rule_key, attribute_rules) :: rest =>
      execute_rule rule_key attribute_rules ;;; execute_rules rest
  end.

(** A dictionary iterated by key and indexed by that key yields its items
    in insertion order. *)
Definition execute_matching : M unit := execute_rules (_matching_rules self).

(** *** What the methods compute, without the builders

    The functions below restate [_get_conditions] and [execute_rule] as
    functions of the read-only attributes and of the DML manager alone;
    the properties section proves that the methods compute them. *)

(** The equality leaf of one alias. *)
Definition join_leaf (alias_attribute : string) : Res Condition :=
  tgt_col_name <- get_matching_attribute_by_alias (_tgt_source self) alias_attribute ;;
  left_db_col <- get_table_column (_no_matching_source self) tgt_col_name ;;
  right_db_col <- get_table_column_by_alias (_ref_source self) alias_attribute ;;
  Ok (EqualCols left_db_col right_db_col).

(** The loop's variable after the leaves [ls], from [join_condition]. *)
Fixpoint conjoin (ls : list Condition) (join_condition : option Condition)
  : option Condition :=
  match ls with
  | [] => join_condition
  | leaf :: rest =>
      conjoin rest (Some (match join_condition with
                          | None => leaf
                          | Some jc => And leaf jc
                          end))
  end.

Definition conditions (attribute_rules : list string)
  : Res (option Condition * Condition) :=
  ls <- mapM join_leaf attribute_rules ;;
  tgt_db_name <- get_table_column (_no_matching_source self) "tgt_name" ;;
  Ok (conjoin ls None, EqualValue tgt_db_name (name (_tgt_source self))).

(** The select both statements of a rule are built around. *)
Definition rule_select (cols : list SelectItem) (join_condition where_cond : Condition)
  : SelectStm :=
  mkSelect cols _no_matching_table [(_ref_table, join_condition)] (Some where_cond).

Definition rule_step (rule_key : string) (attribute_rules : list string)
    (dml : DmlManager) : Res DmlManager :=
  cols <- _get_cols_match rule_key ;;
  conds <- conditions attribute_rules ;;
  join_condition <- match fst conds with
                    | Some jc => Ok jc
                    | None => Raise EmptyCondition
                    end ;;
  let select_stm := rule_select (fst cols) join_condition (snd conds) in
  matching_db_cols <- get_db_cols_with_same_name (_matching_source self) (snd cols) ;;
  r1 <- exec_insert (database dml) _matching_table matching_db_cols select_stm ;;
  col_matching_id_db <-
    get_table_column (_no_matching_source self) (matching_id (_no_matching_source self)) ;;
  let delete_stm :=
    mkDelete _no_matching_table col_matching_id_db
      (rule_select [ColRef col_matching_id_db] join_condition (snd conds)) in
  r2 <- exec_delete (fst r1) delete_stm ;;
  Ok (mkDml (fst r2)
        ((executed dml
          ++ [(InsertFromSelect _matching_table matching_db_cols select_stm, snd r1)])
          ++ [(DeleteWhereIn delete_stm, snd r2)])).

Fixpoint rules_steps (rules : list (string * list string)) (dml : DmlManager)
  : Res DmlManager :=
  match rules with
  | [] => Ok dml
  | (rule_key, attribute_rules) :: rest =>
      dml' <- rule_step rule_key attribute_rules dml ;;
      rules_steps rest dml'
  end.

(** *** What a rule matches

    The vocabulary of the properties: the joined row that a no-matching row
    and a referential row form, the pairs a rule's select keeps, the rows
    it matches, and the rows its delete removes. *)

Definition joined (nm_row ref_row : Row) : Env :=
  [(_no_matching_table, nm_row); (_ref_table, ref_row)].

Definition matched_pairs (join_condition where_cond : Condition)
    (nm_rows ref_rows : Table) : list Env :=
  List.filter (fun env => holds env where_cond)
    (flat_map (fun env =>
       List.filter (fun env' => holds env' join_condition)
         (map (fun r => env ++ [(_ref_table, r)]) ref_rows))
       (map (fun r => [(_no_matching_table, r)]) nm_rows)).

(** The no-matching row satisfies the join condition and the filter with
    some referential row. *)
Definition is_match (join_condition where_cond : Condition) (ref_rows : Table)
    (r : Row) : bool :=
  existsb (fun rr => holds (joined r rr) join_condition
                     && holds (joined r rr) where_cond) ref_rows.

Definition id_of (r : Row) : option string :=
  assoc (matching_id (_no_matching_source self)) r.

Definition matching_id_column : Column :=
  mkColumn _no_matching_table (matching_id (_no_matching_source self)).

(** The row's identifier is among those the delete's subquery selects. *)
Definition deleted_by (join_condition where_cond : Condition)
    (nm_rows ref_rows : Table) (r : Row) : bool :=
  existsb (fun env => sql_eq (id_of r) (lookup_col env matching_id_column))
    (matched_pairs join_condition where_cond nm_rows ref_rows).

(** [matching_id] identifies the rows of the no-matching table: it is never
    NULL and no two rows share it. *)
Definition ids_present (rows : Table) : Prop :=
  forall r, In r rows -> is_Some (id_of r).

Definition ids_unique (rows : Table) : Prop :=
  forall r r', In r rows -> In r' rows -> id_of r = id_of r' -> r = r'.

(** The matching, no-matching and referential tables are three tables. *)
Definition separate_tables : Prop :=
  _matching_table <> _no_matching_table
  /\ _matching_table <> _ref_table
  /\ _ref_table <> _no_matching_table.

(** The configuration resolves for a rule: its projection, its conditions,
    the target columns of the insert and the identifier column. *)
Definition resolves (rule_key : string) (attribute_rules : list string)
    (cols : list SelectItem) (jc w : Condition) (mcols : list Column) : Prop :=
  (exists names,
      _get_cols_match rule_key = Ok (cols, names)
      /\ get_db_cols_with_same_name (_matching_source self) names = Ok mcols)
  /\ conditions attribute_rules = Ok (Some jc, w)
  /\ length mcols = length cols
  /\ get_table_column (_no_matching_source self)
       (matching_id (_no_matching_source self)) = Ok matching_id_column.

(** The two statements of a rule. *)
Definition insert_stm (cols : list SelectItem) (jc w : Condition)
    (mcols : list Column) : Statement :=
  InsertFromSelect _matching_table mcols (rule_select cols jc w).

Definition delete_stm (jc w : Condition) : Statement :=
  DeleteWhereIn
    (mkDelete _no_matching_table matching_id_column
       (rule_select [ColRef matching_id_column] jc w)).

(** The rule's join condition and filter hold of the row with some
    referential row. *)
Definition rule_matches (attribute_rules : list string) (ref_rows : Table)
    (r : Row) : bool :=
  match conditions attribute_rules with
  | Ok (Some jc, w) => is_match jc w ref_rows r
  | _ => false
  end.

(** The rows that no rule matches. *)
Definition residual_rows (rules : list (string * list string))
    (ref_rows nm_rows : Table) : Table :=
  List.filter
    (fun r => negb (existsb (fun rule => rule_matches (snd rule) ref_rows r) rules))
    nm_rows.

(** The row that the insert stores for a pair the select keeps. *)
Definition match_row (cols : list SelectItem) (mcols : list Column) (env : Env)
  : Row :=
  make_row (map col_name mcols) (map (eval_item env) cols).

End Methods.

(** The matcher with other rules bound. *)
Definition with_rules (self : DbMatcherDrm) (rules : list (string * list string))
  : DbMatcherDrm :=
  mkMatcher (_matching_type self) (_literal_matching_type self)
    (_literal_matching_scope self) (_tgt_source self) (_ref_source self)
    (_matching_source self) (_no_matching_source self) rules.

(** A log in which every delete directly follows an insert whose select
    has the same source, joins and filter; an insert may end it. *)
Fixpoint insert_then_delete (log : list (Statement * nat)) : Prop :=
  match log with
  | [] => True
  | (InsertFromSelect _ _ s, _) :: rest =>
      match rest with
      | [] => True
      | (DeleteWhereIn d, _) :: rest' =>
          sel_from (del_in d) = sel_from s
          /\ sel_joins (del_in d) = sel_joins s
          /\ sel_where (del_in d) = sel_where s
          /\ insert_then_delete rest'
      | (InsertFromSelect _ _ _, _) :: _ => False
      end
  | (DeleteWhereIn _, _) :: _ => False
  end.

(** Modelled from the spec: the base class that binds a policy to the
    matcher and starts a run is absent; section 4.4 has a run validate
    applicability first (step 1) and then execute the rules that the policy
    holds for the matcher's type. *)
Definition run (tgt ref matching no_matching : DataSource)
    (policy : MatchingPolicy) : M unit :=
  let self := __init__ tgt ref matching no_matching (get_rules policy "drm") in
  _can_matcher_be_used self policy ;;; execute_matching self.

(** *** A sample configuration

    A target [tgt_a] whose residuals share the no-matching table with those
    of another target, a referential, and two residual rules: one on the
    ISIN and the LEI, one on the ISIN alone. *)

Definition sample_tgt : DataSource :=
  mkSource "tgt_a" "TGT_A" ["id"; "isin"; "lei"]
    [("isin_alias", "isin"); ("lei_alias", "lei")]
    [("isin", "isin"); ("lei", "lei")] "id".

Definition sample_ref : DataSource :=
  mkSource "ref" "REF" ["isin"; "lei"; "company"]
    [("isin_alias", "isin"); ("lei_alias", "lei")]
    [("ref_company", "company")] "isin".

Definition sample_matching : DataSource :=
  mkSource "matching" "MATCHING"
    ["matching_type"; "matching_scope"; "matching_rule"; "isin"; "lei";
     "ref_company"]
    [] [] "matching_id".

Definition sample_no_matching : DataSource :=
  mkSource "no_matching" "NO_MATCHING"
    ["matching_id"; "tgt_name"; "isin"; "lei"] [] [] "matching_id".

Definition sample_policy : MatchingPolicy :=
  [("dfm", [("full", ["isin_alias"; "lei_alias"])]);
   ("drm", [("by_both", ["isin_alias"; "lei_alias"]);
            ("by_isin", ["isin_alias"])])].

Definition sample_self : DbMatcherDrm :=
  __init__ sample_tgt sample_ref sample_matching sample_no_matching
    (get_rules sample_policy "drm").

Definition residual (id tgt isin lei : string) : Row :=
  [("matching_id", id); ("tgt_name", tgt); ("isin", isin); ("lei", lei)].

Definition sample_residuals : Table :=
  [residual "1" "tgt_a" "A" "L1";
   residual "2" "tgt_a" "B" "L9";
   residual "3" "tgt_a" "Z" "L0";
   residual "4" "tgt_b" "A" "L1"].

Definition sample_referential : Table :=
  [[("isin", "A"); ("lei", "L1"); ("company", "Acme")];
   [("isin", "B"); ("lei", "L2"); ("company", "Beta")]].

Definition sample_db : Database :=
  [("NO_MATCHING", sample_residuals);
   ("REF", sample_referential);
   ("MATCHING", [])].

Definition sample_state : State :=
  mkState None None (mkSelectBuilder [] None [] None) (mkDeleteBuilder None None)
    (mkDml sample_db []).

End Matcher.

(** * Properties *)

(** ** Results and [mapM] *)

Lemma bind_Ok_inv {E A B} (m : Result E A) (k : A -> Result E B) (b : B) :
  bind m k = Ok b -> exists a, m = Ok a /\ k a = Ok b.
Proof. destruct m as [a|e]; simpl; [eauto | discriminate]. Qed.

Lemma mapM_Ok_length {E A B} (f : A -> Result E B) l ys :
  mapM f l = Ok ys -> length ys = length l.
Proof.
  revert ys; induction l as [|x l IH]; simpl; intros ys H.
  - injection H as <-; reflexivity.
  - apply bind_Ok_inv in H as (y & _ & H).
    apply bind_Ok_inv in H as (ys' & Hys & H).
    injection H as <-; simpl; f_equal; eauto.
Qed.

Lemma mapM_total {E A B} (f : A -> Result E B) l :
  Forall (fun x => is_Ok (f x)) l -> is_Ok (mapM f l).
Proof.
  induction 1 as [|x l [y Hy] _ [ys Hys]]; simpl.
  - eexists; reflexivity.
  - rewrite Hy; simpl; rewrite Hys; simpl; eexists; reflexivity.
Qed.

(** ** Part I: properties of [JsonSettings] *)

Module SettingsFacts.
Import Settings.

Section Loader.

Variable py_eval : string -> Frame -> Res (PyVal * Frame).
Variable file_exists : string -> bool.
Variable get_extension : string -> string.
Variable read_json_file : string -> Res PyVal.

Abbreviation eval_create_table := (Settings.eval_create_table py_eval).
Abbreviation _set_data_source_settings :=
  (Settings._set_data_source_settings py_eval).
Abbreviation __init__ :=
  (Settings.__init__ py_eval file_exists get_extension read_json_file).
Abbreviation eval_keeps_attr := (Settings.eval_keeps_attr py_eval).
Abbreviation eval_is_pure := (Settings.eval_is_pure py_eval).

(** *** Which attributes a step can change *)

Lemma getattr_setattr_ne name attr v self :
  attr <> name -> getattr (setattr attr v self) name = getattr self name.
Proof. intros; unfold getattr, setattr; apply lookup_insert_ne; assumption. Qed.


Lemma preserves_seq name f g :
  preserves name f -> preserves name g -> preserves name (f >=> g).
Proof.
  intros Hf Hg self self' H.
  apply bind_Ok_inv in H as (a & Ha & H).
  rewrite (Hg _ _ H); eauto.
Qed.

Lemma preserves_if_in name k sub_dict body :
  preserves name body -> preserves name (if_in k sub_dict body).
Proof.
  intros Hb self self' H; unfold if_in in H.
  apply bind_Ok_inv in H as ([] & _ & H); [eauto|].
  injection H as <-; reflexivity.
Qed.

Ltac inv_ok :=
  repeat match goal with
    | H : bind _ _ = Ok _ |- _ => apply bind_Ok_inv in H as (? & ? & H)
    | H : (if ?b then _ else _) = Ok _ |- _ => destruct b
    | H : Raise _ = Ok _ |- _ => discriminate H
    | H : Ok _ = Ok _ |- _ => injection H as <-
    end.

Lemma preserves_assign_item name attr sub_dict k :
  attr <> name -> preserves name (assign_item attr sub_dict k).
Proof.
  intros Hne self self' H; unfold assign_item in H; inv_ok.
  apply getattr_setattr_ne; assumption.
Qed.

Lemma preserves_assign_nonempty_dict name attr sub_dict k exn :
  attr <> name -> preserves name (assign_nonempty_dict attr sub_dict k exn).
Proof.
  intros Hne self self' H; unfold assign_nonempty_dict in H; inv_ok.
  apply getattr_setattr_ne; assumption.
Qed.

(** A branch written in place: every path either keeps [self] or assigns one
    attribute other than [name]. *)
Ltac preserves_body :=
  let self := fresh "self" in
  let self' := fresh "self'" in
  let H := fresh "H" in
  intros self self' H; inv_ok;
  first [reflexivity | apply getattr_setattr_ne; discriminate].

Lemma file_processing_preserves name settings_json :
  name <> "file_path" -> name <> "file_extension_pattern" ->
  name <> "file_encoding" -> name <> "file_separator" ->
  preserves name (_set_file_processing_settings settings_json).
Proof.
  intros N1 N2 N3 N4 self self' H; unfold _set_file_processing_settings in H.
  apply bind_Ok_inv in H as ([] & _ & H).
  - apply bind_Ok_inv in H as (sub_dict & _ & H).
    revert self self' H.
    repeat (apply preserves_seq || apply preserves_if_in);
      apply preserves_assign_item; congruence.
  - injection H as <-; reflexivity.
Qed.


Ltac preserves_step :=
  first [ apply preserves_assign_item; discriminate
        | apply preserves_assign_nonempty_dict; discriminate
        | preserves_body ].

Ltac preserves_steps :=
  repeat (apply preserves_seq; [apply preserves_if_in; preserves_step|]);
  apply preserves_if_in; preserves_step.

(** *** The data source section, around the call of [eval] *)

Lemma eval_create_table_Ok_inv fr fr' :
  eval_create_table fr = Ok fr' ->
  (py_contains "create_table" (fr_sub_dict fr) = Ok false /\ fr' = fr)
  \/ exists s v fr1,
       py_contains "create_table" (fr_sub_dict fr) = Ok true
       /\ py_getitem (fr_sub_dict fr) (PStr "create_table") = Ok (PStr s)
       /\ py_eval s fr = Ok (v, fr1)
       /\ fr' = mkFrame (setattr "datasource_create_table" v (fr_self fr1))
                  (fr_settings_json fr1) (fr_sub_dict fr1).
Proof.
  unfold Settings.eval_create_table; intros H.
  apply bind_Ok_inv in H as ([] & Hin & H).
  - right. apply bind_Ok_inv in H as (x & Hx & H).
    apply bind_Ok_inv in H as ([v fr1] & He & H).
    injection H as <-.
    destruct x as [| | |s| |]; try discriminate He.
    exists s, v, fr1. cbn [builtin_eval] in He. auto.
  - left. injection H as <-. auto.
Qed.

Lemma data_source_Ok_inv settings_json self self' settings' :
  _set_data_source_settings settings_json self = Ok (self', settings') ->
  exists sub_dict self1 fr,
    py_getitem settings_json (PStr "data_source") = Ok sub_dict
    /\ data_source_names sub_dict self = Ok self1
    /\ eval_create_table (mkFrame self1 settings_json sub_dict) = Ok fr
    /\ data_source_checked (fr_sub_dict fr) (fr_self fr) = Ok self'
    /\ settings' = fr_settings_json fr.
Proof.
  unfold Settings._set_data_source_settings; intros H.
  apply bind_Ok_inv in H as ([] & _ & H); [|discriminate H].
  apply bind_Ok_inv in H as (sub_dict & Hsub & H).
  apply bind_Ok_inv in H as (self1 & H1 & H).
  apply bind_Ok_inv in H as (fr & Hfr & H).
  apply bind_Ok_inv in H as (self2 & H2 & H).
  injection H as <- <-. eauto 10.
Qed.

Lemma pure_keeps_attr settings_json name :
  eval_is_pure settings_json -> eval_keeps_attr settings_json name.
Proof. intros Hp s fr v fr' Hs He. rewrite (Hp s fr v fr' Hs He); reflexivity. Qed.

(** The [create_table] branch leaves an attribute that the expression
    leaves. *)
Lemma eval_create_table_attr settings_json sub_dict self fr name :
  py_getitem settings_json (PStr "data_source") = Ok sub_dict ->
  name <> "datasource_create_table" ->
  eval_keeps_attr settings_json name ->
  eval_create_table (mkFrame self settings_json sub_dict) = Ok fr ->
  getattr (fr_self fr) name = getattr self name.
Proof.
  intros Hsub N Hk H.
  apply eval_create_table_Ok_inv in H
    as [[_ ->]|(s & v & fr1 & _ & Hs & He & ->)]; [reflexivity|].
  cbn [fr_self fr_sub_dict] in *.
  rewrite getattr_setattr_ne by congruence.
  exact (Hk s (mkFrame self settings_json sub_dict) v fr1
           (ex_intro _ sub_dict (conj Hsub Hs)) He).
Qed.

(** With an expression that has no side effect, the branch leaves the two
    dictionaries as they were. *)
Lemma eval_create_table_pure settings_json sub_dict self fr :
  py_getitem settings_json (PStr "data_source") = Ok sub_dict ->
  eval_is_pure settings_json ->
  eval_create_table (mkFrame self settings_json sub_dict) = Ok fr ->
  fr_settings_json fr = settings_json /\ fr_sub_dict fr = sub_dict.
Proof.
  intros Hsub Hp H.
  apply eval_create_table_Ok_inv in H
    as [[_ ->]|(s & v & fr1 & _ & Hs & He & ->)]; [auto|].
  cbn [fr_self fr_settings_json fr_sub_dict] in *.
  rewrite (Hp s _ v fr1 (ex_intro _ sub_dict (conj Hsub Hs)) He).
  auto.
Qed.

Lemma data_source_names_preserves name sub_dict :
  name <> "datasource_name" -> name <> "datasource_table_name" ->
  preserves name (data_source_names sub_dict).
Proof.
  intros N1 N2. unfold data_source_names.
  apply preserves_seq; apply preserves_if_in; apply preserves_assign_item;
    congruence.
Qed.

Lemma data_source_checked_preserves name sub_dict :
  In name ["file_path"; "file_extension_pattern"; "file_encoding";
           "file_separator"; "filename_pattern"; "matching_policy";
           "datasource_name"; "datasource_table_name";
           "datasource_create_table"] ->
  preserves name (data_source_checked sub_dict).
Proof.
  intros Hn. unfold data_source_checked.
  repeat (destruct Hn as [<-|Hn]; [preserves_steps|]). destruct Hn.
Qed.

(** The data source section leaves an attribute it does not assign, when
    the expression it evaluates leaves it. *)
Lemma data_source_preserves name settings_json self self' settings' :
  In name ["file_path"; "file_extension_pattern"; "file_encoding";
           "file_separator"; "filename_pattern"; "matching_policy"] ->
  eval_keeps_attr settings_json name ->
  _set_data_source_settings settings_json self = Ok (self', settings') ->
  getattr self' name = getattr self name.
Proof.
  intros Hn Hk H.
  apply data_source_Ok_inv in H
    as (sub_dict & self1 & fr & Hsub & H1 & Hfr & H2 & _).
  assert (Hn' : In name ["file_path"; "file_extension_pattern"; "file_encoding";
                         "file_separator"; "filename_pattern"; "matching_policy";
                         "datasource_name"; "datasource_table_name";
                         "datasource_create_table"]).
  { cbn in Hn |- *. intuition. }
  rewrite (data_source_checked_preserves name _ Hn' _ _ H2).
  assert (N : name <> "datasource_name" /\ name <> "datasource_table_name"
              /\ name <> "datasource_create_table").
  { destruct Hn as [<-|[<-|[<-|[<-|[<-|[<-|[]]]]]]]; repeat split; discriminate. }
  destruct N as (N1 & N2 & N3).
  rewrite (eval_create_table_attr _ _ _ _ name Hsub N3 Hk Hfr).
  apply (data_source_names_preserves name _ N1 N2 _ _ H1).
Qed.

(** With an expression that has no side effect, the method hands back the
    settings it received. *)
Lemma data_source_settings_unchanged settings_json self self' settings' :
  eval_is_pure settings_json ->
  _set_data_source_settings settings_json self = Ok (self', settings') ->
  settings' = settings_json.
Proof.
  intros Hp H.
  apply data_source_Ok_inv in H
    as (sub_dict & self1 & fr & Hsub & H1 & Hfr & H2 & ->).
  apply (eval_create_table_pure _ _ _ _ Hsub Hp Hfr).
Qed.


Lemma defaults_matching_policy :
  getattr defaults "matching_policy" = Some PNone.
Proof. vm_compute; reflexivity. Qed.

(** What [__init__] runs once the file checks have passed. *)
Lemma init_Ok_inv json_settings self :
  __init__ json_settings = Ok self ->
  exists dict_json self1 self2 dict_json',
    read_json_file json_settings = Ok dict_json
    /\ _set_file_processing_settings dict_json
         (setattr "_filename_settings" (PStr json_settings) defaults) = Ok self1
    /\ _set_data_source_settings dict_json self1 = Ok (self2, dict_json')
    /\ _set_matching_policy_settings dict_json' self2 = Ok self.
Proof.
  unfold Settings.__init__; intros H.
  destruct (file_exists json_settings); cbn [bind] in H; [|discriminate H].
  destruct (negb (String.eqb (get_extension json_settings) ".json"));
    [discriminate H|].
  apply bind_Ok_inv in H as (dict_json & Hr & H).
  apply bind_Ok_inv in H as (self1 & H1 & H).
  apply bind_Ok_inv in H as ([self2 dict_json'] & H2 & H).
  cbn [fst snd] in H. eauto 10.
Qed.





(** C8 (as the code has it): a settings file without the [data_source]
    section never loads: [_set_data_source_settings] raises
    [DataSourceSettingsNotDefined], a typed configuration error. A settings
    file without the [matching_policy] section is accepted:
    [_set_matching_policy_settings] returns without a change, so the
    construction succeeds whenever the first two sections load, and
    [matching_policy] keeps its default [None], the ['create_table']
    expression, if there is one, having no side effect. *)
Theorem required_sections :
  (forall settings_json self,
      py_contains "data_source" settings_json = Ok false ->
      _set_data_source_settings settings_json self
        = Raise DataSourceSettingsNotDefined
      /\ is_settings_error DataSourceSettingsNotDefined = true)
  /\ (forall json_settings dict_json,
         read_json_file json_settings = Ok dict_json ->
         py_contains "data_source" dict_json = Ok false ->
         ~ is_Ok (__init__ json_settings))
  /\ (forall settings_json self,
         py_contains "matching_policy" settings_json = Ok false ->
         _set_matching_policy_settings settings_json self = Ok self)
  /\ (forall json_settings dict_json self1 self2 dict_json',
         file_exists json_settings = true ->
         get_extension json_settings = ".json" ->
         read_json_file json_settings = Ok dict_json ->
         py_contains "matching_policy" dict_json = Ok false ->
         eval_is_pure dict_json ->
         _set_file_processing_settings dict_json
           (setattr "_filename_settings" (PStr json_settings) defaults) = Ok self1 ->
         _set_data_source_settings dict_json self1 = Ok (self2, dict_json') ->
         __init__ json_settings = Ok self2
         /\ getattr self2 "matching_policy" = Some PNone).
Proof.
  assert (A : forall settings_json self,
             py_contains "data_source" settings_json = Ok false ->
             _set_data_source_settings settings_json self
               = Raise DataSourceSettingsNotDefined).
  { intros settings_json self H.
    unfold Settings._set_data_source_settings; rewrite H; reflexivity. }
  assert (B : forall settings_json self,
             py_contains "matching_policy" settings_json = Ok false ->
             _set_matching_policy_settings settings_json self = Ok self).
  { intros settings_json self H.
    unfold _set_matching_policy_settings; rewrite H; reflexivity. }
  split; [|split; [|split]].
  - intros settings_json self H. split; [apply A; assumption | reflexivity].
  - intros json_settings dict_json Hr Hno [self H].
    apply init_Ok_inv in H
      as (dict_json0 & self1 & self2 & dict_json' & Hr' & _ & H2 & _).
    rewrite Hr in Hr'; injection Hr' as <-.
    rewrite (A _ _ Hno) in H2; discriminate.
  - exact B.
  - intros json_settings dict_json self1 self2 dict_json'
      Hex Hext Hr Hno Hp H1 H2.
    pose proof (data_source_settings_unchanged _ _ _ _ Hp H2) as ->.
    split.
    + unfold Settings.__init__.
      rewrite Hex, Hext, Hr.
      change (negb (".json" =? ".json")%string) with false; cbn [bind].
      rewrite H1; cbn [bind]. rewrite H2; cbn [bind fst snd].
      apply B; assumption.
    + rewrite (data_source_preserves "matching_policy" _ _ _ _
                 ltac:(cbn; auto 10) (pure_keeps_attr _ _ Hp) H2).
      rewrite (file_processing_preserves "matching_policy" _
                 ltac:(discriminate) ltac:(discriminate) ltac:(discriminate)
                 ltac:(discriminate) _ _ H1).
      rewrite getattr_setattr_ne by discriminate.
      apply defaults_matching_policy.
Qed.

(** *** Invariants of the loaded object *)
























(** *** The matching policy section *)



(** *** Further properties of the loader *)

(** X1: the file checks come first. A path that does not exist raises
    [FileSettingsDoesNotExist], whatever its extension; a file that exists
    but whose extension is not [.json] raises [FileSettingsIsNotAJsonFile];
    in both cases the file is not read. *)
Theorem file_checks_come_first json_settings :
  (file_exists json_settings = false ->
   __init__ json_settings = Raise FileSettingsDoesNotExist)
  /\ (file_exists json_settings = true ->
      get_extension json_settings <> ".json" ->
      __init__ json_settings = Raise FileSettingsIsNotAJsonFile).
Proof.
  split.
  - intros H. unfold Settings.__init__. rewrite H. reflexivity.
  - intros H Hext. unfold Settings.__init__. rewrite H; cbn [bind].
    rewrite (proj2 (String.eqb_neq _ _) Hext). reflexivity.
Qed.




(** X5: a file processing section that has the ['filename_pattern'] key but
    not the ['file_path'] key makes the constructor raise [KeyError]: the
    branch of ['filename_pattern'] reads ['file_path']. *)
Theorem filename_pattern_needs_file_path json_settings dict_json d :
  file_exists json_settings = true ->
  get_extension json_settings = ".json" ->
  read_json_file json_settings = Ok dict_json ->
  py_contains "file_processing" dict_json = Ok true ->
  py_getitem dict_json (PStr "file_processing") = Ok (PDict d) ->
  is_Some (dict_find (PStr "filename_pattern") d) ->
  dict_find (PStr "file_path") d = None ->
  __init__ json_settings = Raise KeyError.
Proof.
  intros Hex Hext Hr Hin Hsub Hfp Hpath.
  unfold Settings.__init__. rewrite Hex, Hext, Hr.
  change (negb (".json" =? ".json")%string) with false; cbn [bind].
  generalize (setattr "_filename_settings" (PStr json_settings) defaults).
  intros self0.
  unfold _set_file_processing_settings. rewrite Hin, Hsub; cbn [bind].
  unfold if_in at 1. cbn [py_contains]. rewrite Hpath.
  rewrite (bool_decide_eq_false_2 _ is_Some_None); cbn [bind].
  unfold if_in at 1. cbn [py_contains bind].
  assert (Step2 : exists self1,
             (if bool_decide (is_Some (dict_find (PStr "file_extension_pattern") d))
              then assign_item "file_extension_pattern" (PDict d)
                     "file_extension_pattern" self0
              else Ok self0) = Ok self1).
  { case_bool_decide as E; [|eauto].
    unfold assign_item; cbn [py_getitem hashable].
    destruct E as [v ->]; cbn [bind]. eauto. }
  destruct Step2 as [self1 ->]; cbn [bind].
  unfold if_in at 1. cbn [py_contains].
  rewrite (bool_decide_eq_true_2 _ Hfp); cbn [bind].
  unfold assign_item; cbn [py_getitem hashable]. rewrite Hpath. reflexivity.
Qed.




End Loader.

(** *** The theorems at the sample environment *)

Lemma sample_eval_pure s fr v fr' :
  s <> "setattr(self, 'filename_pattern', 'x')" ->
  sample_eval s fr = Ok (v, fr') -> fr' = fr.
Proof.
  unfold sample_eval; intros N H.
  destruct (String.eqb s "True"); [injection H as _ <-; reflexivity|].
  destruct (String.eqb s "False"); [injection H as _ <-; reflexivity|].
  destruct (String.eqb s "1"); [injection H as _ <-; reflexivity|].
  destruct (String.eqb_spec s "setattr(self, 'filename_pattern', 'x')");
    [contradiction | discriminate H].
Qed.

(** Settings whose ['create_table'] string, if they have one, is not the
    call of [setattr] are evaluated without a side effect. *)
Lemma sample_pure settings_json :
  ~ create_table_string settings_json "setattr(self, 'filename_pattern', 'x')" ->
  eval_is_pure sample_eval settings_json.
Proof.
  intros N s fr v fr' Hs He.
  apply (sample_eval_pure s fr v fr'); [|exact He].
  intros ->. exact (N Hs).
Qed.

Lemma sample_settings_pure : eval_is_pure sample_eval (sample_settings "1").
Proof.
  apply sample_pure. intros (sub_dict & Hsub & Hs).
  vm_compute in Hsub. injection Hsub as <-. discriminate Hs.
Qed.




Lemma sample_loads : is_Ok (sample_init "ref.json").
Proof. cbv -[setattr defaults]; eexists; reflexivity. Defined.




(** C8 as stated fails: the settings file [ref.json] has no
    [matching_policy] section, and its construction does not raise. *)
Lemma missing_matching_policy_is_accepted :
  sample_read "ref.json" = Ok (sample_settings "1")
  /\ py_contains "matching_policy" (sample_settings "1") = Ok false
  /\ ~ (exists e, sample_init "ref.json" = Raise e).
Proof.
  split; [reflexivity|]; split; [reflexivity|].
  destruct sample_loads as [self E]; rewrite E.
  intros [e H]; discriminate H.
Qed.

Lemma required_sections_witness :
  ~ is_Ok (sample_init "no_source.json")
  /\ (forall self,
         _set_matching_policy_settings (sample_settings "1") self = Ok self)
  /\ exists self,
       sample_init "ref.json" = Ok self
       /\ getattr self "matching_policy" = Some PNone.
Proof.
  pose proof (required_sections sample_eval (fun _ => true)
                (fun _ => ".json") sample_read) as (_ & T2 & T3 & T4).
  split; [|split].
  - exact (T2 "no_source.json" _ eq_refl eq_refl).
  - intros self. exact (T3 (sample_settings "1") self eq_refl).
  - destruct (_set_file_processing_settings (sample_settings "1")
                (setattr "_filename_settings" (PStr "ref.json") defaults))
      as [self1|e] eqn:E1; [|cbv -[setattr defaults] in E1; discriminate E1].
    destruct (Settings._set_data_source_settings sample_eval
                (sample_settings "1") self1)
      as [[self2 dict_json']|e] eqn:E2.
    + exists self2.
      exact (T4 "ref.json" (sample_settings "1") self1 self2 dict_json'
               eq_refl eq_refl eq_refl eq_refl sample_settings_pure E1 E2).
    + exfalso. cbv -[setattr defaults] in E2. discriminate E2.
Defined.

(** *** The further properties at the sample settings *)



Lemma file_checks_come_first_witness :
  Settings.__init__ sample_eval (fun _ => false) (fun _ => ".json") sample_read
    "ref.json" = Raise FileSettingsDoesNotExist
  /\ Settings.__init__ sample_eval (fun _ => true) (fun _ => ".csv") sample_read
       "ref.csv" = Raise FileSettingsIsNotAJsonFile.
Proof.
  split.
  - exact (proj1 (file_checks_come_first sample_eval (fun _ => false)
                    (fun _ => ".json") sample_read "ref.json") eq_refl).
  - apply (proj2 (file_checks_come_first sample_eval (fun _ => true)
                    (fun _ => ".csv") sample_read "ref.csv"));
      [reflexivity | discriminate].
Defined.




Lemma filename_pattern_needs_file_path_witness :
  extra_init "pattern_only.json" = Raise KeyError.
Proof.
  eapply (filename_pattern_needs_file_path sample_eval (fun _ => true)
            (fun _ => ".json") extra_read "pattern_only.json");
    try reflexivity.
  eexists; reflexivity.
Defined.




End SettingsFacts.


(** ** Part II: properties of [DbMatcherDrm] *)

Module MatcherFacts.
Import Matcher.

Lemma mbind_Ok_inv {A B} (m : M A) (k : A -> M B) st b st' :
  mbind m k st = (Ok b, st') ->
  exists a st1, m st = (Ok a, st1) /\ k a st1 = (Ok b, st').
Proof.
  unfold mbind; destruct (m st) as [[a|e] st1]; [eauto | discriminate].
Qed.

Section Methods.

Variable self : DbMatcherDrm.

(** *** [_get_conditions] *)

Lemma _get_conditions_loop_spec attribute_rules join_condition st :
  exists st',
    _get_conditions_loop self attribute_rules join_condition st
      = (ls <- mapM (join_leaf self) attribute_rules ;;
         Ok (conjoin ls join_condition), st')
    /\ _dml_manager st' = _dml_manager st
    /\ _where_condition_builder st' = _where_condition_builder st
    /\ _select_builder st' = _select_builder st
    /\ _delete_builder st' = _delete_builder st.
Proof.
  revert join_condition st.
  induction attribute_rules as [|alias_attribute rest IH]; intros jc st.
  - exists st; cbn; auto.
  - cbn [_get_conditions_loop mapM]. unfold join_leaf at 1.
    unfold mbind at 1, lift at 1.
    destruct (get_matching_attribute_by_alias _ _) as [tgt_col_name|e];
      cbn [bind]; [|exists st; auto].
    unfold mbind at 1, lift at 1.
    destruct (get_table_column _ tgt_col_name) as [l|e];
      cbn [bind]; [|exists st; auto].
    unfold mbind at 1, lift at 1.
    destruct (get_table_column_by_alias _ _) as [r|e];
      cbn [bind]; [|exists st; auto].
    destruct jc as [jc|]; cbn -[_get_conditions_loop mapM conjoin].
    + match goal with
      | |- context [_get_conditions_loop self rest ?j ?s] =>
          destruct (IH j s) as (st' & -> & ? & ? & ? & ?)
      end.
      exists st'; destruct (mapM (join_leaf self) rest); cbn in *; auto.
    + match goal with
      | |- context [_get_conditions_loop self rest ?j ?s] =>
          destruct (IH j s) as (st' & -> & ? & ? & ? & ?)
      end.
      exists st'; destruct (mapM (join_leaf self) rest); cbn in *; auto.
Qed.

Lemma _get_conditions_spec attribute_rules st :
  exists st',
    _get_conditions self attribute_rules st
      = (conditions self attribute_rules, st')
    /\ _dml_manager st' = _dml_manager st
    /\ _select_builder st' = _select_builder st
    /\ _delete_builder st' = _delete_builder st.
Proof.
  unfold _get_conditions, conditions.
  unfold mbind at 1.
  destruct (_get_conditions_loop_spec attribute_rules None st)
    as (st1 & -> & Hd & _ & Hs & Hdel).
  destruct (mapM (join_leaf self) attribute_rules) as [ls|e];
    cbn [bind]; [|exists st1; auto].
  unfold mbind at 1, lift at 1.
  destruct (get_table_column _ "tgt_name") as [c|e];
    cbn [bind]; [|exists st1; auto].
  cbn. eexists; split; [reflexivity|]. cbn; auto.
Qed.

(** *** The join condition: a conjunction of the leaves *)

Lemma leaves_leaf c : is_leaf c -> leaves c = [c].
Proof. destruct c; simpl; [reflexivity | reflexivity | contradiction]. Qed.

Lemma conjoin_Some ls jc :
  Forall is_leaf ls ->
  exists c, conjoin ls (Some jc) = Some c /\ leaves c = rev ls ++ leaves jc.
Proof.
  intros H; revert jc; induction H as [|leaf ls Hleaf _ IH]; intros jc.
  - exists jc; split; reflexivity.
  - cbn [conjoin]. destruct (IH (And leaf jc)) as (c & -> & Hc).
    exists c; split; [reflexivity|].
    rewrite Hc; cbn [leaves rev]. rewrite (leaves_leaf _ Hleaf).
    rewrite <- app_assoc; reflexivity.
Qed.

Lemma conjoin_None leaf ls :
  Forall is_leaf (leaf :: ls) ->
  exists c, conjoin (leaf :: ls) None = Some c /\ leaves c = rev (leaf :: ls).
Proof.
  intros H; inversion H as [|? ? Hleaf Hls]; subst.
  cbn [conjoin]. destruct (conjoin_Some ls leaf Hls) as (c & -> & Hc).
  exists c; split; [reflexivity|].
  rewrite Hc, (leaves_leaf _ Hleaf); reflexivity.
Qed.

Lemma holds_leaves env c : holds env c = forallb (holds env) (leaves c).
Proof.
  induction c as [l r|col v|a IHa b IHb]; cbn [holds leaves forallb].
  - rewrite andb_true_r; reflexivity.
  - rewrite andb_true_r; reflexivity.
  - rewrite List.forallb_app, IHa, IHb; reflexivity.
Qed.

Lemma forallb_Permutation {A} (f : A -> bool) l l' :
  Permutation l l' -> forallb f l = forallb f l'.
Proof.
  induction 1 as [|x l l' _ IH|x y l|l l' l'' _ IH1 _ IH2]; cbn [forallb].
  - reflexivity.
  - rewrite IH; reflexivity.
  - destruct (f x), (f y); reflexivity.
  - congruence.
Qed.

Lemma mapM_Permutation {E A B} (f : A -> Result E B) l l' ys :
  Permutation l l' -> mapM f l = Ok ys ->
  exists ys', mapM f l' = Ok ys' /\ Permutation ys ys'.
Proof.
  intros HP; revert ys.
  induction HP as [|x l l' _ IH|x y l|l l' l'' _ IH1 _ IH2]; intros ys H.
  - exists ys; split; [assumption | reflexivity].
  - cbn [mapM] in *.
    apply bind_Ok_inv in H as (b & Hb & H).
    apply bind_Ok_inv in H as (bs & Hbs & H); injection H as <-.
    destruct (IH _ Hbs) as (bs' & -> & HP'); rewrite Hb; cbn [bind].
    exists (b :: bs'); split; [reflexivity | constructor; assumption].
  - cbn [mapM] in *.
    apply bind_Ok_inv in H as (b & Hb & H).
    apply bind_Ok_inv in H as (bs & Hbs & H); injection H as <-.
    apply bind_Ok_inv in Hbs as (c & Hc & H).
    apply bind_Ok_inv in H as (cs & Hcs & H); injection H as <-.
    rewrite Hc, Hb, Hcs; cbn [bind].
    exists (c :: b :: cs); split; [reflexivity | constructor].
  - destruct (IH1 _ H) as (ys1 & H1 & P1).
    destruct (IH2 _ H1) as (ys2 & H2 & P2).
    exists ys2; split; [assumption | etransitivity; eassumption].
Qed.

Lemma join_leaf_is_leaf alias leaf : join_leaf self alias = Ok leaf -> is_leaf leaf.
Proof.
  unfold join_leaf; intros H.
  apply bind_Ok_inv in H as (? & _ & H).
  apply bind_Ok_inv in H as (? & _ & H).
  apply bind_Ok_inv in H as (? & _ & H).
  injection H as <-; exact I.
Qed.

Lemma mapM_join_leaf_leaves rules ls :
  mapM (join_leaf self) rules = Ok ls -> Forall is_leaf ls.
Proof.
  revert ls; induction rules as [|a rules IH]; cbn [mapM]; intros ls H.
  - injection H as <-; constructor.
  - apply bind_Ok_inv in H as (leaf & Hleaf & H).
    apply bind_Ok_inv in H as (ls' & Hls & H); injection H as <-.
    constructor; [eapply join_leaf_is_leaf; eassumption | eauto].
Qed.

(** C2: for a rule with N >= 1 aliases that resolve, [_get_conditions]
    returns a join condition whose equality leaves are the leaves of the N
    aliases, each exactly once (the later a leaf was added, the earlier it
    stands), so the condition holds of a joined row exactly when all N
    equalities do; and the aliases taken in any other order give a
    condition that holds of the same joined rows. *)
Theorem join_condition_is_conjunction attribute_rules st :
  attribute_rules <> [] ->
  Forall (fun alias => is_Ok (join_leaf self alias)) attribute_rules ->
  is_Ok (get_table_column (_no_matching_source self) "tgt_name") ->
  exists join_condition where_cond st' ls,
    _get_conditions self attribute_rules st
      = (Ok (Some join_condition, where_cond), st')
    /\ mapM (join_leaf self) attribute_rules = Ok ls
    /\ leaves join_condition = rev ls
    /\ length (leaves join_condition) = length attribute_rules
    /\ (forall env, holds env join_condition = forallb (holds env) ls)
    /\ forall attribute_rules' st0,
         Permutation attribute_rules attribute_rules' ->
         exists join_condition' st0',
           _get_conditions self attribute_rules' st0
             = (Ok (Some join_condition', where_cond), st0')
           /\ Permutation (leaves join_condition') (leaves join_condition)
           /\ forall env, holds env join_condition' = holds env join_condition.
Proof.
  intros Hne Hres [tgt_db_name Htgt].
  destruct (mapM_total _ _ Hres) as [ls Hls].
  assert (Shape : forall rules ls0 st0,
             rules <> [] -> mapM (join_leaf self) rules = Ok ls0 ->
             exists jc st0',
               _get_conditions self rules st0
                 = (Ok (Some jc, EqualValue tgt_db_name (name (_tgt_source self))),
                    st0')
               /\ leaves jc = rev ls0).
  { intros rules ls0 st0 Hne0 Hls0.
    destruct (_get_conditions_spec rules st0) as (st0' & E & _).
    unfold conditions in E; rewrite Hls0, Htgt in E; cbn [bind] in E.
    pose proof (mapM_join_leaf_leaves _ _ Hls0) as Hleaf.
    destruct ls0 as [|leaf ls0].
    { apply mapM_Ok_length in Hls0; destruct rules; [congruence | discriminate]. }
    destruct (conjoin_None _ _ Hleaf) as (jc & Hjc & Hl).
    rewrite Hjc in E. eauto. }
  destruct (Shape _ _ st Hne Hls) as (jc & st' & E & Hl).
  exists jc, (EqualValue tgt_db_name (name (_tgt_source self))), st', ls.
  split; [exact E|]. split; [exact Hls|]. split; [exact Hl|].
  split.
  { rewrite Hl, length_rev. eapply mapM_Ok_length; eassumption. }
  split.
  { intros env. rewrite holds_leaves, Hl.
    apply forallb_Permutation. symmetry; apply Permutation_rev. }
  intros rules' st0 HP.
  destruct (mapM_Permutation _ _ _ _ HP Hls) as (ls' & Hls' & HPl).
  assert (Hne' : rules' <> []).
  { intros ->. apply Permutation_nil_r in HP. contradiction. }
  destruct (Shape _ _ st0 Hne' Hls') as (jc' & st0' & E' & Hl').
  exists jc', st0'. split; [exact E'|].
  assert (P : Permutation (leaves jc') (leaves jc)).
  { rewrite Hl, Hl'. rewrite <- !Permutation_rev. symmetry; assumption. }
  split; [exact P|].
  intros env. rewrite !holds_leaves. apply forallb_Permutation; assumption.
Qed.

(** *** Tables *)

Lemma assoc_cons_eq {A} k (v : A) d : assoc k ((k, v) :: d) = Some v.
Proof. unfold assoc; cbn. rewrite String.eqb_refl; reflexivity. Qed.

Lemma get_table_set_table_eq db t rows0 rows :
  get_table db t = Ok rows0 -> get_table (set_table t rows db) t = Ok rows.
Proof.
  unfold get_table, assoc.
  induction db as [|[t' rows'] db IH]; cbn; [discriminate|].
  destruct (String.eqb t' t) eqn:E; cbn.
  - rewrite E; reflexivity.
  - rewrite E; exact IH.
Qed.

Lemma get_table_set_table_ne db t t' rows :
  t <> t' -> get_table (set_table t rows db) t' = get_table db t'.
Proof.
  intros Hne; unfold get_table, assoc.
  induction db as [|[t0 rows0] db IH]; cbn; [reflexivity|].
  destruct (String.eqb t0 t) eqn:E; cbn.
  - apply String.eqb_eq in E; subst t0.
    destruct (String.eqb t t') eqn:E'; [|reflexivity].
    apply String.eqb_eq in E'; contradiction.
  - destruct (String.eqb t0 t'); [reflexivity | exact IH].
Qed.

Lemma set_table_id db t rows :
  get_table db t = Ok rows -> set_table t rows db = db.
Proof.
  unfold get_table, assoc.
  induction db as [|[t' rows'] db IH]; cbn; [reflexivity|].
  destruct (String.eqb t' t) eqn:E; cbn.
  - intros [= ->]; reflexivity.
  - intros H; rewrite (IH H); reflexivity.
Qed.

Lemma get_table_column_Ok ds col c :
  get_table_column ds col = Ok c -> c = mkColumn (table_name ds) col.
Proof.
  unfold get_table_column; destruct (existsb _ _); [|discriminate].
  intros [= <-]; reflexivity.
Qed.

(** *** The select of a rule *)

Lemma selected_envs_rule db cols jc w nm_rows ref_rows :
  get_table db (_no_matching_table self) = Ok nm_rows ->
  get_table db (_ref_table self) = Ok ref_rows ->
  selected_envs db (rule_select self cols jc w)
    = Ok (matched_pairs self jc w nm_rows ref_rows).
Proof.
  intros Hnm Href; unfold selected_envs, rule_select; cbn [sel_from sel_joins sel_where].
  rewrite Hnm; cbn [bind join_envs]. rewrite Href; cbn [bind]. reflexivity.
Qed.

Lemma in_matched_pairs jc w nm_rows ref_rows env :
  In env (matched_pairs self jc w nm_rows ref_rows)
  <-> exists r rr, In r nm_rows /\ In rr ref_rows /\ env = joined self r rr
                   /\ holds env jc = true /\ holds env w = true.
Proof.
  unfold matched_pairs. rewrite List.filter_In, List.in_flat_map. split.
  - intros [(env0 & H0 & H1) Hw].
    apply List.in_map_iff in H0 as (r & <- & Hr).
    apply List.filter_In in H1 as [H1 Hj].
    apply List.in_map_iff in H1 as (rr & <- & Hrr).
    exists r, rr; auto.
  - intros (r & rr & Hr & Hrr & -> & Hj & Hw). split; [|assumption].
    exists [(_no_matching_table self, r)]. split.
    + apply List.in_map_iff; eauto.
    + apply List.filter_In; split; [|assumption].
      apply List.in_map_iff; exists rr; auto.
Qed.

Lemma matched_pairs_nil jc w nm_rows ref_rows :
  (forall r, In r nm_rows -> is_match self jc w ref_rows r = false) ->
  matched_pairs self jc w nm_rows ref_rows = [].
Proof.
  intros H.
  destruct (matched_pairs self jc w nm_rows ref_rows) as [|env l] eqn:E;
    [reflexivity|].
  assert (Hin : In env (matched_pairs self jc w nm_rows ref_rows))
    by (rewrite E; left; reflexivity).
  apply in_matched_pairs in Hin as (r & rr & Hr & Hrr & -> & Hj & Hw).
  specialize (H r Hr). unfold is_match in H.
  assert (Hex : existsb (fun rr => holds (joined self r rr) jc
                                    && holds (joined self r rr) w) ref_rows
                = true).
  { apply List.existsb_exists; exists rr; rewrite Hj, Hw; auto. }
  congruence.
Qed.

Lemma lookup_matching_id r rr :
  lookup_col (joined self r rr) (matching_id_column self) = id_of self r.
Proof.
  unfold lookup_col, joined, matching_id_column; cbn [col_table col_name].
  rewrite assoc_cons_eq; reflexivity.
Qed.

Lemma sql_eq_refl v : sql_eq (Some v) (Some v) = true.
Proof. apply String.eqb_refl. Qed.

Lemma sql_eq_true a b : sql_eq a b = true -> a = b /\ is_Some a.
Proof.
  destruct a as [x|], b as [y|]; cbn; try discriminate.
  intros H; apply String.eqb_eq in H; subst; eauto.
Qed.

(** A matched row that has an identifier is removed. *)
Lemma match_is_deleted jc w nm_rows ref_rows r :
  In r nm_rows -> is_Some (id_of self r) ->
  is_match self jc w ref_rows r = true ->
  deleted_by self jc w nm_rows ref_rows r = true.
Proof.
  intros Hr [v Hv] Hm. unfold is_match in Hm.
  apply List.existsb_exists in Hm as (rr & Hrr & Hm).
  apply andb_true_iff in Hm as [Hj Hw].
  unfold deleted_by; apply List.existsb_exists.
  exists (joined self r rr); split.
  - apply in_matched_pairs; exists r, rr; auto.
  - rewrite lookup_matching_id, Hv; apply sql_eq_refl.
Qed.

(** A removed row shares its identifier with a matched row. *)
Lemma deleted_has_match jc w nm_rows ref_rows r :
  deleted_by self jc w nm_rows ref_rows r = true ->
  exists r', In r' nm_rows /\ is_match self jc w ref_rows r' = true
             /\ id_of self r = id_of self r'.
Proof.
  unfold deleted_by; intros H.
  apply List.existsb_exists in H as (env & Hin & Heq).
  apply in_matched_pairs in Hin as (r' & rr & Hr' & Hrr & -> & Hj & Hw).
  rewrite lookup_matching_id in Heq. apply sql_eq_true in Heq as [Heq _].
  exists r'; split; [assumption|]; split; [|assumption].
  unfold is_match; apply List.existsb_exists; exists rr.
  rewrite Hj, Hw; auto.
Qed.

Lemma deleted_iff_match jc w nm_rows ref_rows r :
  ids_present self nm_rows -> ids_unique self nm_rows -> In r nm_rows ->
  deleted_by self jc w nm_rows ref_rows r = is_match self jc w ref_rows r.
Proof.
  intros Hp Hu Hr.
  destruct (is_match self jc w ref_rows r) eqn:Hm.
  - apply match_is_deleted; auto.
  - destruct (deleted_by self jc w nm_rows ref_rows r) eqn:Hd; [|reflexivity].
    apply deleted_has_match in Hd as (r' & Hr' & Hm' & Heq).
    rewrite (Hu r r' Hr Hr' Heq) in Hm; congruence.
Qed.

Lemma key_in_subquery k (envs : list Env) c :
  key_in k (map (fun env => map (eval_item env) [ColRef c]) envs)
  = existsb (fun env => sql_eq k (lookup_col env c)) envs.
Proof. induction envs as [|env envs IH]; cbn; [reflexivity | rewrite <- IH; reflexivity]. Qed.

(** *** [execute_rule] and [execute_rules] compute [rule_step] and
    [rules_steps] *)

Lemma execute_rule_spec rule_key attribute_rules st :
  exists st',
    execute_rule self rule_key attribute_rules st
      = (dml' <- rule_step self rule_key attribute_rules (_dml_manager st) ;;
         Ok tt, st')
    /\ forall dml',
         rule_step self rule_key attribute_rules (_dml_manager st) = Ok dml' ->
         _dml_manager st' = dml'.
Proof.
  unfold execute_rule, rule_step, insert_into_from_select, delete_data.
  unfold mbind at 1, lift at 1.
  destruct (_get_cols_match self rule_key) as [[select_db_cols select_name_cols]|e];
    cbn [bind fst snd]; [|exists st; split; [reflexivity | discriminate]].
  unfold mbind at 1.
  destruct (_get_conditions_spec attribute_rules st) as (st1 & -> & Hd & _ & _).
  destruct (conditions self attribute_rules) as [[join_condition where_cond]|e];
    cbn [bind fst snd]; [|exists st1; split; [reflexivity | discriminate]].
  destruct st1 as [jb wb sb delb dml1]; cbn [_dml_manager] in Hd; subst dml1.
  cbv beta iota delta
    [mbind lift gets ret set_select_builder set_delete_builder set_dml_manager
     _join_condition_builder _where_condition_builder _select_builder
     _delete_builder _dml_manager].
  destruct join_condition as [jc|];
    [|eexists; split; [reflexivity | discriminate]].
  cbn [build_statement create_select from_table join_table join_on
       where_condition sb_cols sb_from sb_joins sb_where close_join app
       mapM build_join bind fst snd].
  destruct (get_db_cols_with_same_name _ select_name_cols) as [matching_db_cols|e];
    cbn [bind]; [|eexists; split; [reflexivity | discriminate]].
  unfold rule_select.
  destruct (exec_insert _ _ _ _) as [r1|e];
    cbn [bind]; [|eexists; split; [reflexivity | discriminate]].
  destruct (get_table_column _ _) as [col_matching_id_db|e];
    cbn [bind]; [|eexists; split; [reflexivity | discriminate]].
  cbn [build_statement create_select from_table join_table join_on
       where_condition sb_cols sb_from sb_joins sb_where close_join app
       mapM build_join bind fst snd
       build_delete_statement where_in_condition delete_from_table
       create_delete db_from db_where_in database executed].
  destruct (exec_delete _ _) as [r2|e];
    cbn [bind]; [|eexists; split; [reflexivity | discriminate]].
  eexists; split; [reflexivity|].
  intros dml' [= <-]; reflexivity.
Qed.

Lemma execute_rules_spec rules st :
  exists st',
    execute_rules self rules st
      = (dml' <- rules_steps self rules (_dml_manager st) ;; Ok tt, st')
    /\ forall dml',
         rules_steps self rules (_dml_manager st) = Ok dml' ->
         _dml_manager st' = dml'.
Proof.
  revert st; induction rules as [|[rule_key attribute_rules] rest IH]; intros st.
  - exists st; split; [reflexivity|]. intros dml' [= <-]; reflexivity.
  - cbn [execute_rules rules_steps].
    unfold mbind at 1.
    destruct (execute_rule_spec rule_key attribute_rules st) as (st1 & -> & H1).
    destruct (rule_step self rule_key attribute_rules (_dml_manager st))
      as [dml1|e]; cbn [bind];
      [|exists st1; split; [reflexivity | discriminate]].
    rewrite <- (H1 dml1 eq_refl).
    destruct (IH st1) as (st' & -> & H2).
    exists st'; split; [reflexivity | assumption].
Qed.

(** A run that returns has taken the steps of [rules_steps]. *)
Lemma execute_matching_Ok st st' :
  execute_matching self st = (Ok tt, st') ->
  rules_steps self (_matching_rules self) (_dml_manager st)
    = Ok (_dml_manager st').
Proof.
  unfold execute_matching; intros H.
  destruct (execute_rules_spec (_matching_rules self) st) as (st1 & E & Hd).
  rewrite E in H.
  destruct (rules_steps self (_matching_rules self) (_dml_manager st))
    as [dml'|e]; [|discriminate H].
  injection H as <-. rewrite (Hd dml' eq_refl); reflexivity.
Qed.

(** A run returns whenever [rules_steps] does. *)
Lemma execute_matching_total st dml' :
  rules_steps self (_matching_rules self) (_dml_manager st) = Ok dml' ->
  exists st', execute_matching self st = (Ok tt, st')
              /\ _dml_manager st' = dml'.
Proof.
  unfold execute_matching; intros H.
  destruct (execute_rules_spec (_matching_rules self) st) as (st1 & E & Hd).
  rewrite H in E; exists st1; split; [exact E | exact (Hd _ H)].
Qed.

(** *** One rule, table by table *)

Lemma rule_step_inv rule_key attribute_rules dml dml' nm_rows ref_rows :
  separate_tables self ->
  get_table (database dml) (_no_matching_table self) = Ok nm_rows ->
  get_table (database dml) (_ref_table self) = Ok ref_rows ->
  rule_step self rule_key attribute_rules dml = Ok dml' ->
  exists cols names jc w mcols m_rows,
    _get_cols_match self rule_key = Ok (cols, names)
    /\ conditions self attribute_rules = Ok (Some jc, w)
    /\ get_db_cols_with_same_name (_matching_source self) names = Ok mcols
    /\ length mcols = length cols
    /\ get_table_column (_no_matching_source self)
         (matching_id (_no_matching_source self)) = Ok (matching_id_column self)
    /\ get_table (database dml) (_matching_table self) = Ok m_rows
    /\ let pairs := matched_pairs self jc w nm_rows ref_rows in
       let new := map (fun env => make_row (map col_name mcols)
                                    (map (eval_item env) cols)) pairs in
       let kept := List.filter
                     (fun r => negb (deleted_by self jc w nm_rows ref_rows r))
                     nm_rows in
       database dml'
         = set_table (_no_matching_table self) kept
             (set_table (_matching_table self) (m_rows ++ new) (database dml))
       /\ executed dml'
          = executed dml
            ++ [(InsertFromSelect (_matching_table self) mcols
                   (rule_select self cols jc w), length new);
                (DeleteWhereIn
                   (mkDelete (_no_matching_table self) (matching_id_column self)
                      (rule_select self [ColRef (matching_id_column self)] jc w)),
                 length nm_rows - length kept)].
Proof.
  intros (Hmn & Hmr & Hrn) Hnm Href H; unfold rule_step in H.
  apply bind_Ok_inv in H as ([cols names] & Hcols & H).
  apply bind_Ok_inv in H as ([jo w] & Hconds & H).
  apply bind_Ok_inv in H as (jc & Hjc & H).
  cbn [fst snd] in *.
  destruct jo as [jc0|]; [injection Hjc as Hjc; subst jc0|discriminate Hjc].
  apply bind_Ok_inv in H as (mcols & Hmcols & H).
  apply bind_Ok_inv in H as ([db1 n1] & Hins & H).
  apply bind_Ok_inv in H as (idcol & Hid & H).
  apply bind_Ok_inv in H as ([db2 n2] & Hdel & H).
  injection H as <-. cbn [fst snd] in *.
  pose proof (get_table_column_Ok _ _ _ Hid) as ->.
  fold (_no_matching_table self) in *. fold (matching_id_column self) in *.
  (* the insert *)
  unfold exec_insert in Hins.
  destruct (Nat.eqb _ _) eqn:Hlen; cbn [negb] in Hins; [|discriminate Hins].
  apply Nat.eqb_eq in Hlen; cbn [sel_cols rule_select] in Hlen.
  unfold run_select in Hins.
  rewrite (selected_envs_rule _ _ _ _ _ _ Hnm Href) in Hins; cbn [bind] in Hins.
  apply bind_Ok_inv in Hins as (m_rows & Hm & Hins).
  injection Hins as <- <-.
  (* the delete *)
  unfold exec_delete in Hdel; cbn [del_in del_from del_col] in Hdel.
  unfold run_select in Hdel.
  rewrite (selected_envs_rule _ _ _ _ nm_rows ref_rows) in Hdel.
  2: { rewrite get_table_set_table_ne by assumption; assumption. }
  2: { rewrite get_table_set_table_ne by assumption; assumption. }
  cbn [bind] in Hdel.
  rewrite get_table_set_table_ne in Hdel by assumption.
  rewrite Hnm in Hdel; cbn [bind] in Hdel.
  injection Hdel as <- <-.
  exists cols, names, jc, w, mcols, m_rows.
  repeat (split; [assumption|]). cbn zeta.
  assert (Hk : forall r,
             key_in (assoc (col_name (matching_id_column self)) r)
               (map (fun env => map (eval_item env)
                                  (sel_cols (rule_select self
                                     [ColRef (matching_id_column self)] jc w)))
                  (matched_pairs self jc w nm_rows ref_rows))
             = deleted_by self jc w nm_rows ref_rows r).
  { intros r. cbn [sel_cols rule_select]. rewrite key_in_subquery. reflexivity. }
  rewrite (List.filter_ext _ _ (fun r => f_equal negb (Hk r))).
  cbn [database executed]. rewrite List.map_map, !length_map.
  split; [reflexivity|].
  rewrite <- app_assoc; reflexivity.
Qed.

Lemma execute_rule_Ok rule_key attribute_rules st st' :
  execute_rule self rule_key attribute_rules st = (Ok tt, st') ->
  rule_step self rule_key attribute_rules (_dml_manager st)
    = Ok (_dml_manager st').
Proof.
  intros H.
  destruct (execute_rule_spec rule_key attribute_rules st) as (st1 & E & Hd).
  rewrite E in H.
  destruct (rule_step self rule_key attribute_rules (_dml_manager st))
    as [dml'|e]; [|discriminate H].
  injection H as <-. rewrite (Hd dml' eq_refl); reflexivity.
Qed.

Lemma get_table_after_rule db m_rows' kept nm_rows :
  _matching_table self <> _no_matching_table self ->
  get_table db (_no_matching_table self) = Ok nm_rows ->
  get_table
    (set_table (_no_matching_table self) kept
       (set_table (_matching_table self) m_rows' db))
    (_no_matching_table self) = Ok kept.
Proof.
  intros Hne Hnm. eapply get_table_set_table_eq.
  rewrite get_table_set_table_ne by assumption. eassumption.
Qed.

Lemma purge_core rule_key attribute_rules st st' nm_rows ref_rows :
  separate_tables self ->
  get_table (database (_dml_manager st)) (_no_matching_table self) = Ok nm_rows ->
  get_table (database (_dml_manager st)) (_ref_table self) = Ok ref_rows ->
  ids_present self nm_rows ->
  ids_unique self nm_rows ->
  execute_rule self rule_key attribute_rules st = (Ok tt, st') ->
  exists jc w,
    conditions self attribute_rules = Ok (Some jc, w)
    /\ get_table (database (_dml_manager st')) (_no_matching_table self)
       = Ok (List.filter (fun r => negb (is_match self jc w ref_rows r)) nm_rows)
    /\ exists cols mcols n1 n2,
         executed (_dml_manager st')
         = executed (_dml_manager st)
           ++ [(insert_stm self cols jc w mcols, n1); (delete_stm self jc w, n2)].
Proof.
  intros Hsep Hnm Href Hp Hu H.
  apply execute_rule_Ok in H.
  destruct (rule_step_inv _ _ _ _ _ _ Hsep Hnm Href H)
    as (cols & names & jc & w & mcols & m_rows & _ & Hc & _ & _ & _ & Hm & Hdb & Hlog).
  cbn zeta in Hdb, Hlog.
  exists jc, w. split; [exact Hc|].
  assert (Hf : List.filter (fun r => negb (deleted_by self jc w nm_rows ref_rows r))
                 nm_rows
               = List.filter (fun r => negb (is_match self jc w ref_rows r)) nm_rows).
  { apply List.filter_ext_in. intros r Hr.
    rewrite (deleted_iff_match jc w nm_rows ref_rows r Hp Hu Hr); reflexivity. }
  split.
  { rewrite Hdb, Hf. destruct Hsep as (Hmn & _).
    eapply get_table_after_rule; eassumption. }
  exists cols, mcols. do 2 eexists. exact Hlog.
Qed.

(** C3: after [execute_rule] has processed a rule, the no-matching table
    holds exactly the rows that satisfied the rule's join condition and the
    target-name filter with no referential row: every row that did with
    some referential row is gone, and no other row is. The delete that does
    it selects the [matching_id] column from the same source, join and
    filter as the select of the insert before it. [matching_id] is taken to
    identify the rows of the no-matching table (never NULL, never
    shared). *)
Theorem purge_is_exact rule_key attribute_rules st st' nm_rows ref_rows :
  separate_tables self ->
  get_table (database (_dml_manager st)) (_no_matching_table self) = Ok nm_rows ->
  get_table (database (_dml_manager st)) (_ref_table self) = Ok ref_rows ->
  ids_present self nm_rows ->
  ids_unique self nm_rows ->
  execute_rule self rule_key attribute_rules st = (Ok tt, st') ->
  exists cols mcols jc w n1 n2 nm_rows',
    conditions self attribute_rules = Ok (Some jc, w)
    /\ executed (_dml_manager st')
       = executed (_dml_manager st)
         ++ [(insert_stm self cols jc w mcols, n1); (delete_stm self jc w, n2)]
    /\ get_table (database (_dml_manager st')) (_no_matching_table self)
       = Ok nm_rows'
    /\ nm_rows' = List.filter (fun r => negb (is_match self jc w ref_rows r)) nm_rows
    /\ (forall r, In r nm_rows ->
          is_match self jc w ref_rows r = true -> ~ In r nm_rows')
    /\ (forall r, In r nm_rows ->
          is_match self jc w ref_rows r = false -> In r nm_rows').
Proof.
  intros Hsep Hnm Href Hp Hu H.
  destruct (purge_core _ _ _ _ _ _ Hsep Hnm Href Hp Hu H)
    as (jc & w & Hc & Hget & cols & mcols & n1 & n2 & Hlog).
  exists cols, mcols, jc, w, n1, n2.
  exists (List.filter (fun r => negb (is_match self jc w ref_rows r)) nm_rows).
  split; [exact Hc|]. split; [exact Hlog|]. split; [exact Hget|].
  split; [reflexivity|]. split.
  - intros r Hr Hm' Hin. apply List.filter_In in Hin as [_ Hin].
    rewrite Hm' in Hin; discriminate.
  - intros r Hr Hm'. apply List.filter_In. rewrite Hm'; auto.
Qed.

(** The filter of a rule compares the row's [tgt_name] with the target's
    name. *)
Lemma conditions_where attribute_rules jo w :
  conditions self attribute_rules = Ok (jo, w) ->
  w = EqualValue (mkColumn (_no_matching_table self) "tgt_name")
        (name (_tgt_source self)).
Proof.
  unfold conditions; intros H.
  apply bind_Ok_inv in H as (ls & _ & H).
  apply bind_Ok_inv in H as (c & Hc & H).
  injection H as _ <-. rewrite (get_table_column_Ok _ _ _ Hc); reflexivity.
Qed.

Lemma holds_target_filter r rr :
  holds (joined self r rr)
    (EqualValue (mkColumn (_no_matching_table self) "tgt_name")
       (name (_tgt_source self)))
  = sql_eq (assoc "tgt_name" r) (Some (name (_tgt_source self))).
Proof.
  cbn [holds]. unfold lookup_col, joined; cbn [col_table col_name].
  rewrite assoc_cons_eq; reflexivity.
Qed.

Lemma other_target_no_match jc ref_rows r :
  assoc "tgt_name" r <> Some (name (_tgt_source self)) ->
  is_match self jc
    (EqualValue (mkColumn (_no_matching_table self) "tgt_name")
       (name (_tgt_source self))) ref_rows r = false.
Proof.
  intros Hne. unfold is_match.
  destruct (existsb _ ref_rows) eqn:E; [|reflexivity].
  apply List.existsb_exists in E as (rr & _ & E).
  apply andb_true_iff in E as [_ E]. rewrite holds_target_filter in E.
  apply sql_eq_true in E as [E _]. contradiction.
Qed.

(** C6: the where condition that [_get_conditions] returns is the equality
    of the no-matching table's [tgt_name] column with the name of the target
    datasource, whatever the rule. A row of the no-matching table whose
    [tgt_name] is another target's is therefore in no pair that the rule's
    select keeps, and, [matching_id] identifying the rows, it is still in
    the table after the rule. *)
Theorem where_condition_is_target_filter :
  (forall attribute_rules st jo w st',
      _get_conditions self attribute_rules st = (Ok (jo, w), st') ->
      w = EqualValue (mkColumn (_no_matching_table self) "tgt_name")
            (name (_tgt_source self)))
  /\ (forall rule_key attribute_rules st st' nm_rows ref_rows,
         separate_tables self ->
         get_table (database (_dml_manager st)) (_no_matching_table self)
           = Ok nm_rows ->
         get_table (database (_dml_manager st)) (_ref_table self) = Ok ref_rows ->
         ids_present self nm_rows ->
         ids_unique self nm_rows ->
         execute_rule self rule_key attribute_rules st = (Ok tt, st') ->
         exists jc w nm_rows',
           conditions self attribute_rules = Ok (Some jc, w)
           /\ get_table (database (_dml_manager st')) (_no_matching_table self)
              = Ok nm_rows'
           /\ forall r,
                In r nm_rows ->
                assoc "tgt_name" r <> Some (name (_tgt_source self)) ->
                (forall rr,
                    ~ In (joined self r rr)
                        (matched_pairs self jc w nm_rows ref_rows))
                /\ In r nm_rows').
Proof.
  split.
  - intros attribute_rules st jo w st' H.
    destruct (_get_conditions_spec attribute_rules st) as (st1 & E & _).
    rewrite E in H. injection H as H _.
    eapply conditions_where; eassumption.
  - intros rule_key attribute_rules st st' nm_rows ref_rows Hsep Hnm Href Hp Hu H.
    destruct (purge_core rule_key attribute_rules st st' nm_rows ref_rows
                Hsep Hnm Href Hp Hu H)
      as (jc & w & Hc & Hget & _).
    exists jc, w. eexists. split; [exact Hc|]. split; [exact Hget|].
    intros r Hr Hne.
    pose proof (conditions_where _ _ _ Hc) as ->.
    pose proof (other_target_no_match jc ref_rows r Hne) as Hno.
    split.
    + intros rr Hin.
      apply in_matched_pairs in Hin as (r0 & rr0 & _ & Hrr0 & Heq & Hj & Hw).
      injection Heq as <- <-.
      unfold is_match in Hno.
      assert (existsb (fun rr => holds (joined self r rr) jc
                && holds (joined self r rr)
                     (EqualValue (mkColumn (_no_matching_table self) "tgt_name")
                        (name (_tgt_source self)))) ref_rows = true).
      { apply List.existsb_exists; exists rr; rewrite Hj, Hw; auto. }
      congruence.
    + apply List.filter_In. rewrite Hno; auto.
Qed.

(** *** The order of the statements of a rule *)

Lemma execute_rule_phases rule_key attribute_rules st :
  let out := execute_rule self rule_key attribute_rules st in
  let d := _dml_manager st in
  let d' := _dml_manager (snd out) in
  (exists e, fst out = Raise e /\ d' = d)
  \/ (exists e cols jc w mcols db1 n1,
         fst out = Raise e
         /\ exec_insert (database d) (_matching_table self) mcols
              (rule_select self cols jc w) = Ok (db1, n1)
         /\ d' = mkDml db1 (executed d ++ [(insert_stm self cols jc w mcols, n1)]))
  \/ (exists cols jc w mcols db1 n1 db2 n2,
         fst out = Ok tt
         /\ exec_insert (database d) (_matching_table self) mcols
              (rule_select self cols jc w) = Ok (db1, n1)
         /\ exec_delete db1
              (mkDelete (_no_matching_table self) (matching_id_column self)
                 (rule_select self [ColRef (matching_id_column self)] jc w))
            = Ok (db2, n2)
         /\ d' = mkDml db2
                   (executed d
                    ++ [(insert_stm self cols jc w mcols, n1);
                        (delete_stm self jc w, n2)])).
Proof.
  cbn zeta.
  destruct (execute_rule self rule_key attribute_rules st) as [res st'] eqn:E.
  cbn [fst snd]. revert E.
  unfold execute_rule, insert_into_from_select, delete_data.
  unfold mbind at 1, lift at 1.
  destruct (_get_cols_match self rule_key) as [[select_db_cols select_name_cols]|e];
    [|intros [= <- <-]; left; exists e; split; reflexivity].
  unfold mbind at 1.
  destruct (_get_conditions_spec attribute_rules st) as (st1 & -> & Hd & _ & _).
  destruct (conditions self attribute_rules) as [[join_condition where_cond]|e];
    [|intros [= <- <-]; left; exists e; split; [reflexivity | exact Hd]].
  destruct st1 as [jb wb sb delb dml1]; cbn [_dml_manager] in Hd; subst dml1.
  cbv beta iota delta
    [mbind lift gets ret set_select_builder set_delete_builder set_dml_manager
     _join_condition_builder _where_condition_builder _select_builder
     _delete_builder _dml_manager].
  destruct join_condition as [jc|];
    [|intros [= <- <-]; left; eexists; split; reflexivity].
  cbn [build_statement create_select from_table join_table join_on
       where_condition sb_cols sb_from sb_joins sb_where close_join app
       mapM build_join bind fst snd].
  destruct (get_db_cols_with_same_name _ select_name_cols) as [matching_db_cols|e];
    [|intros [= <- <-]; left; eexists; split; reflexivity].
  fold (rule_select self select_db_cols jc where_cond).
  destruct (exec_insert _ _ _ _) as [[db1 n1]|e] eqn:Hins;
    [|intros [= <- <-]; left; eexists; split; reflexivity].
  cbn [fst snd].
  destruct (get_table_column _ _) as [col_matching_id_db|e] eqn:Hid.
  2: { intros [= <- <-]; right; left.
       exists e, select_db_cols, jc, where_cond, matching_db_cols, db1, n1.
       split; [reflexivity|]. split; [exact Hins | reflexivity]. }
  pose proof (get_table_column_Ok _ _ _ Hid) as ->.
  fold (_no_matching_table self). fold (matching_id_column self).
  cbn [build_statement create_select from_table join_table join_on
       where_condition sb_cols sb_from sb_joins sb_where close_join app
       mapM build_join bind fst snd
       build_delete_statement where_in_condition delete_from_table
       create_delete db_from db_where_in database executed].
  fold (rule_select self [ColRef (matching_id_column self)] jc where_cond).
  destruct (exec_delete _ _) as [[db2 n2]|e] eqn:Hdel.
  - intros [= <- <-]; right; right.
    exists select_db_cols, jc, where_cond, matching_db_cols, db1, n1, db2, n2.
    split; [reflexivity|]. split; [exact Hins|]. split; [exact Hdel|].
    cbn [fst snd _dml_manager]. rewrite <- app_assoc. reflexivity.
  - intros [= <- <-]; right; left.
    exists e, select_db_cols, jc, where_cond, matching_db_cols, db1, n1.
    split; [reflexivity|]. split; [exact Hins | reflexivity].
Qed.

Lemma exec_insert_other db t cols select db' n t' :
  exec_insert db t cols select = Ok (db', n) -> t <> t' ->
  get_table db' t' = get_table db t'.
Proof.
  unfold exec_insert; intros H Hne.
  destruct (negb _); [discriminate H|].
  apply bind_Ok_inv in H as (tuples & _ & H).
  apply bind_Ok_inv in H as (old & _ & H).
  injection H as <- _. apply get_table_set_table_ne; assumption.
Qed.

Lemma exec_delete_shrinks db d db' n rows :
  exec_delete db d = Ok (db', n) ->
  get_table db (del_from d) = Ok rows ->
  exists rows', get_table db' (del_from d) = Ok rows'
                /\ forall r, In r rows' -> In r rows.
Proof.
  unfold exec_delete; intros H Hrows.
  apply bind_Ok_inv in H as (keys & _ & H).
  rewrite Hrows in H; cbn [bind] in H. injection H as <- _.
  eexists; split; [eapply get_table_set_table_eq; eassumption|].
  intros r Hr. apply List.filter_In in Hr as [Hr _]; exact Hr.
Qed.

Lemma insert_then_delete_pair cols jc w mcols n1 n2 log :
  insert_then_delete
    ((insert_stm self cols jc w mcols, n1) :: (delete_stm self jc w, n2) :: log)
  <-> insert_then_delete log.
Proof. cbn. tauto. Qed.

Lemma insert_then_delete_firstn_fuel k :
  forall log, length log <= k -> insert_then_delete log ->
  forall n, insert_then_delete (firstn n log).
Proof.
  induction k as [k IH] using lt_wf_ind.
  intros log Hk H n.
  destruct log as [|[s1 c1] log]; [destruct n; exact I|].
  destruct n as [|n]; [exact I|].
  destruct s1 as [t cols s|d]; [|contradiction].
  destruct log as [|[s2 c2] log]; [destruct n; exact I|].
  destruct n as [|n]; [exact I|].
  destruct s2 as [t' cols' s'|d]; [contradiction|].
  cbn in H. destruct H as (H1 & H2 & H3 & H).
  cbn [firstn insert_then_delete]. repeat (split; [assumption|]).
  cbn [length] in Hk.
  apply (IH (length log)); [lia | lia | assumption].
Qed.

Lemma insert_then_delete_firstn log n :
  insert_then_delete log -> insert_then_delete (firstn n log).
Proof. intros H; eapply insert_then_delete_firstn_fuel; eauto. Qed.

Lemma execute_rules_cons rule_key attribute_rules rest st :
  execute_rules self ((rule_key, attribute_rules) :: rest) st
  = match execute_rule self rule_key attribute_rules st with
    | (Ok _, st1) => execute_rules self rest st1
    | (Raise e, st1) => (Raise e, st1)
    end.
Proof. reflexivity. Qed.

Lemma execute_rules_log rules st :
  exists log,
    executed (_dml_manager (snd (execute_rules self rules st)))
      = executed (_dml_manager st) ++ log
    /\ insert_then_delete log
    /\ (fst (execute_rules self rules st) = Ok tt ->
        length log = 2 * length rules).
Proof.
  revert st; induction rules as [|[rule_key attribute_rules] rest IH]; intros st.
  - exists []; cbn. rewrite app_nil_r; auto.
  - rewrite execute_rules_cons.
    pose proof (execute_rule_phases rule_key attribute_rules st) as P.
    cbn zeta in P.
    destruct (execute_rule self rule_key attribute_rules st) as [res st1].
    cbn [fst snd] in P.
    destruct P as [(e & -> & Hd)
                  |[(e & cols & jc & w & mcols & db1 & n1 & -> & _ & Hd)
                   |(cols & jc & w & mcols & db1 & n1 & db2 & n2 & -> & _ & _ & Hd)]].
    + exists []; cbn [fst snd]. rewrite Hd, app_nil_r.
      split; [reflexivity|]. split; [exact I | discriminate].
    + exists [(insert_stm self cols jc w mcols, n1)]; cbn [fst snd].
      rewrite Hd. split; [reflexivity|]. split; [exact I | discriminate].
    + destruct (IH st1) as (log & Hlog & Hord & Hlen).
      exists ((insert_stm self cols jc w mcols, n1)
                :: (delete_stm self jc w, n2) :: log).
      split.
      { rewrite Hlog, Hd; cbn [executed]. rewrite <- app_assoc; reflexivity. }
      split.
      { apply insert_then_delete_pair; assumption. }
      intros Hok. cbn [length]. rewrite (Hlen Hok). lia.
Qed.

(** C4: within a rule [execute_rule] issues the insert into the matching
    table before the delete from the no-matching table. Whatever the outcome
    of a rule, either no statement was issued, or the insert alone, the
    no-matching table then being as the rule found it, or the insert and
    then the delete, the no-matching table then holding only rows it held
    before. Over a run the log of issued statements, and every prefix of
    it, has each delete directly after the insert of the same rule (same
    source, joins and filter): at no point has a delete been issued
    without its insert. *)
Theorem insert_precedes_delete :
  (forall rule_key attribute_rules st nm_rows,
      _matching_table self <> _no_matching_table self ->
      get_table (database (_dml_manager st)) (_no_matching_table self)
        = Ok nm_rows ->
      let out := execute_rule self rule_key attribute_rules st in
      let d := _dml_manager st in
      let d' := _dml_manager (snd out) in
      (fst out <> Ok tt /\ d' = d)
      \/ (exists cols jc w mcols n1,
             fst out <> Ok tt
             /\ executed d' = executed d ++ [(insert_stm self cols jc w mcols, n1)]
             /\ get_table (database d') (_no_matching_table self) = Ok nm_rows)
      \/ (exists cols jc w mcols n1 n2 nm_rows',
             fst out = Ok tt
             /\ executed d'
                = executed d
                  ++ [(insert_stm self cols jc w mcols, n1);
                      (delete_stm self jc w, n2)]
             /\ get_table (database d') (_no_matching_table self) = Ok nm_rows'
             /\ forall r, In r nm_rows' -> In r nm_rows))
  /\ (forall st,
         exists log,
           executed (_dml_manager (snd (execute_matching self st)))
             = executed (_dml_manager st) ++ log
           /\ (forall n, insert_then_delete (firstn n log))
           /\ (fst (execute_matching self st) = Ok tt ->
               length log = 2 * length (_matching_rules self))).
Proof.
  split.
  - intros rule_key attribute_rules st nm_rows Hne Hnm. cbn zeta.
    destruct (execute_rule_phases rule_key attribute_rules st)
      as [(e & He & Hd)
         |[(e & cols & jc & w & mcols & db1 & n1 & He & Hins & Hd)
          |(cols & jc & w & mcols & db1 & n1 & db2 & n2 & He & Hins & Hdel & Hd)]].
    + left. rewrite He. split; [discriminate | exact Hd].
    + right; left. exists cols, jc, w, mcols, n1.
      rewrite He, Hd; cbn [executed database].
      split; [discriminate|]. split; [reflexivity|].
      rewrite (exec_insert_other _ _ _ _ _ _ _ Hins Hne). exact Hnm.
    + right; right.
      pose proof (exec_insert_other _ _ _ _ _ _ _ Hins Hne) as Hmid.
      rewrite Hnm in Hmid.
      destruct (exec_delete_shrinks _ _ _ _ _ Hdel Hmid) as (nm' & Hnm' & Hsub).
      exists cols, jc, w, mcols, n1, n2, nm'.
      rewrite He, Hd; cbn [executed database]. auto.
  - intros st. unfold execute_matching.
    destruct (execute_rules_log (_matching_rules self) st)
      as (log & Hlog & Hord & Hlen).
    exists log. split; [exact Hlog|]. split; [|exact Hlen].
    intros n. apply insert_then_delete_firstn; assumption.
Qed.

(** *** A second run *)

Lemma filter_all {A} (f : A -> bool) l :
  (forall x, In x l -> f x = true) -> List.filter f l = l.
Proof.
  induction l as [|x l IH]; cbn; intros H; [reflexivity|].
  rewrite (H x (or_introl eq_refl)), IH; [reflexivity|].
  intros y Hy; apply H; right; exact Hy.
Qed.

(** A rule that matches no row of the no-matching table inserts no row and
    deletes none. *)
Lemma idle_step rule_key attribute_rules dml cols jc w mcols
    nm_rows ref_rows m_rows :
  resolves self rule_key attribute_rules cols jc w mcols ->
  get_table (database dml) (_no_matching_table self) = Ok nm_rows ->
  get_table (database dml) (_ref_table self) = Ok ref_rows ->
  get_table (database dml) (_matching_table self) = Ok m_rows ->
  (forall r, In r nm_rows -> is_match self jc w ref_rows r = false) ->
  rule_step self rule_key attribute_rules dml
  = Ok (mkDml (database dml)
          (executed dml
           ++ [(insert_stm self cols jc w mcols, 0); (delete_stm self jc w, 0)])).
Proof.
  intros ((names & Hcols & Hmcols) & Hc & Hlen & Hid) Hnm Href Hm Hno.
  pose proof (matched_pairs_nil jc w nm_rows ref_rows Hno) as Hnil.
  unfold rule_step.
  rewrite Hcols; cbn [bind fst snd]. rewrite Hc; cbn [bind fst snd].
  rewrite Hmcols; cbn [bind].
  unfold exec_insert; cbn [sel_cols rule_select].
  rewrite (proj2 (Nat.eqb_eq _ _) Hlen); cbn [negb].
  unfold run_select.
  rewrite (selected_envs_rule _ _ _ _ _ _ Hnm Href), Hnil; cbn [bind map].
  rewrite Hm; cbn [bind map length fst snd].
  rewrite app_nil_r, (set_table_id _ _ _ Hm).
  rewrite Hid; cbn [bind].
  unfold exec_delete; cbn [del_in del_from del_col].
  unfold run_select.
  rewrite (selected_envs_rule _ _ _ _ _ _ Hnm Href), Hnil; cbn [bind map].
  rewrite Hnm; cbn [bind fst snd].
  rewrite filter_all by (intros; reflexivity).
  rewrite (set_table_id _ _ _ Hnm), Nat.sub_diag.
  unfold insert_stm, delete_stm. rewrite <- app_assoc. reflexivity.
Qed.

(** After a rule, the rows left in the no-matching table match nothing
    under it. *)
Lemma rule_step_leaves_unmatched rule_key attribute_rules dml dml'
    nm_rows ref_rows :
  separate_tables self ->
  get_table (database dml) (_no_matching_table self) = Ok nm_rows ->
  get_table (database dml) (_ref_table self) = Ok ref_rows ->
  ids_present self nm_rows ->
  rule_step self rule_key attribute_rules dml = Ok dml' ->
  exists cols jc w mcols nm' m',
    resolves self rule_key attribute_rules cols jc w mcols
    /\ get_table (database dml') (_no_matching_table self) = Ok nm'
    /\ (forall r, In r nm' -> In r nm_rows)
    /\ get_table (database dml') (_ref_table self) = Ok ref_rows
    /\ get_table (database dml') (_matching_table self) = Ok m'
    /\ forall r, In r nm' -> is_match self jc w ref_rows r = false.
Proof.
  intros Hsep Hnm Href Hp H.
  destruct (rule_step_inv _ _ _ _ _ _ Hsep Hnm Href H)
    as (cols & names & jc & w & mcols & m_rows
        & Hcols & Hc & Hmcols & Hlen & Hid & Hm & Hdb & _).
  cbn zeta in Hdb. destruct Hsep as (Hmn & Hmr & Hrn).
  exists cols, jc, w, mcols. do 2 eexists.
  split; [repeat split; eauto|].
  rewrite Hdb. split; [eapply get_table_after_rule; eassumption|].
  split; [intros r Hr; apply List.filter_In in Hr as [Hr _]; exact Hr|].
  split.
  { rewrite !get_table_set_table_ne by congruence. exact Href. }
  split.
  { rewrite get_table_set_table_ne by congruence.
    eapply get_table_set_table_eq; eassumption. }
  intros r Hr. apply List.filter_In in Hr as [Hr Hdel].
  destruct (is_match self jc w ref_rows r) eqn:Hm'; [|reflexivity].
  rewrite (match_is_deleted jc w nm_rows ref_rows r Hr (Hp r Hr) Hm') in Hdel.
  discriminate.
Qed.

Lemma first_run rules :
  forall dml dml' nm_rows ref_rows,
    separate_tables self ->
    get_table (database dml) (_no_matching_table self) = Ok nm_rows ->
    get_table (database dml) (_ref_table self) = Ok ref_rows ->
    ids_present self nm_rows ->
    rules_steps self rules dml = Ok dml' ->
    exists nm',
      get_table (database dml') (_no_matching_table self) = Ok nm'
      /\ (forall r, In r nm' -> In r nm_rows)
      /\ get_table (database dml') (_ref_table self) = Ok ref_rows
      /\ (is_Ok (get_table (database dml) (_matching_table self)) ->
          is_Ok (get_table (database dml') (_matching_table self)))
      /\ Forall (fun rule =>
                   exists cols jc w mcols,
                     resolves self (fst rule) (snd rule) cols jc w mcols
                     /\ is_Ok (get_table (database dml') (_matching_table self))
                     /\ forall r, In r nm' -> is_match self jc w ref_rows r = false)
           rules.
Proof.
  induction rules as [|[rule_key attribute_rules] rest IH];
    intros dml dml' nm_rows ref_rows Hsep Hnm Href Hp H.
  - injection H as <-. exists nm_rows. auto.
  - cbn [rules_steps] in H. apply bind_Ok_inv in H as (dml1 & H1 & H).
    destruct (rule_step_leaves_unmatched _ _ _ _ _ _ Hsep Hnm Href Hp H1)
      as (cols & jc & w & mcols & nm1 & m1 & Hres & Hnm1 & Hsub1 & Href1 & Hm1 & Hno).
    assert (Hp1 : ids_present self nm1) by (intros r Hr; apply Hp, Hsub1, Hr).
    destruct (IH _ _ _ _ Hsep Hnm1 Href1 Hp1 H)
      as (nm' & Hnm' & Hsub & Href' & Hm' & Hall).
    assert (Hm2 : is_Ok (get_table (database dml') (_matching_table self)))
      by (apply Hm'; eexists; eassumption).
    exists nm'. split; [exact Hnm'|].
    split; [intros r Hr; apply Hsub1, Hsub, Hr|].
    split; [exact Href'|]. split; [intros _; exact Hm2|].
    constructor; [|exact Hall].
    exists cols, jc, w, mcols. cbn [fst snd].
    split; [exact Hres|]. split; [exact Hm2|].
    intros r Hr. apply Hno, Hsub, Hr.
Qed.

Lemma second_run rules :
  forall dml nm_rows ref_rows,
    get_table (database dml) (_no_matching_table self) = Ok nm_rows ->
    get_table (database dml) (_ref_table self) = Ok ref_rows ->
    Forall (fun rule =>
              exists cols jc w mcols,
                resolves self (fst rule) (snd rule) cols jc w mcols
                /\ is_Ok (get_table (database dml) (_matching_table self))
                /\ forall r, In r nm_rows -> is_match self jc w ref_rows r = false)
      rules ->
    exists log,
      rules_steps self rules dml
        = Ok (mkDml (database dml) (executed dml ++ log))
      /\ Forall (fun entry => snd entry = 0) log
      /\ length log = 2 * length rules.
Proof.
  induction rules as [|[rule_key attribute_rules] rest IH];
    intros dml nm_rows ref_rows Hnm Href Hall.
  - exists []. cbn. rewrite app_nil_r. destruct dml; auto.
  - inversion Hall as [|? ? (cols & jc & w & mcols & Hres & [m_rows Hm] & Hno) Hrest];
      subst.
    cbn [fst snd] in Hres.
    cbn [rules_steps].
    rewrite (idle_step _ _ _ _ _ _ _ _ _ _ Hres Hnm Href Hm Hno); cbn [bind].
    destruct (IH (mkDml (database dml)
                    (executed dml
                     ++ [(insert_stm self cols jc w mcols, 0);
                         (delete_stm self jc w, 0)]))
                nm_rows ref_rows Hnm Href Hrest)
      as (log & -> & Hzero & Hlen).
    cbn [database executed].
    exists ((insert_stm self cols jc w mcols, 0) :: (delete_stm self jc w, 0) :: log).
    split; [rewrite <- app_assoc; reflexivity|].
    split; [repeat constructor; assumption|].
    cbn [length]. lia.
Qed.

(** C5: when a run of [execute_matching] has returned, a second run in the
    state it left returns too, issues the same number of statements, each
    of which affects zero rows (no row is inserted into the matching table,
    none is deleted from the no-matching table), and leaves the database as
    the first run left it. The rows of the no-matching table are taken to
    carry a [matching_id]. *)
Theorem second_run_is_idle st st1 nm_rows ref_rows :
  separate_tables self ->
  get_table (database (_dml_manager st)) (_no_matching_table self) = Ok nm_rows ->
  get_table (database (_dml_manager st)) (_ref_table self) = Ok ref_rows ->
  ids_present self nm_rows ->
  execute_matching self st = (Ok tt, st1) ->
  exists st2 log,
    execute_matching self st1 = (Ok tt, st2)
    /\ database (_dml_manager st2) = database (_dml_manager st1)
    /\ executed (_dml_manager st2) = executed (_dml_manager st1) ++ log
    /\ Forall (fun entry => snd entry = 0) log
    /\ length log = 2 * length (_matching_rules self).
Proof.
  intros Hsep Hnm Href Hp H.
  apply execute_matching_Ok in H.
  destruct (first_run _ _ _ _ _ Hsep Hnm Href Hp H)
    as (nm' & Hnm' & _ & Href' & _ & Hall).
  destruct (second_run _ _ _ _ Hnm' Href' Hall) as (log & Hrun & Hzero & Hlen).
  destruct (execute_matching_total _ _ Hrun) as (st2 & Hst2 & Hd).
  exists st2, log. rewrite Hd; cbn [database executed]. auto.
Qed.

(** *** The projection of a match *)

Lemma mapM_get_table_column ds names cols :
  mapM (get_table_column ds) names = Ok cols ->
  cols = map (mkColumn (table_name ds)) names.
Proof.
  revert cols; induction names as [|n names IH]; cbn [mapM map]; intros cols H.
  - injection H as <-; reflexivity.
  - apply bind_Ok_inv in H as (c & Hc & H).
    apply bind_Ok_inv in H as (cs & Hcs & H); injection H as <-.
    rewrite (get_table_column_Ok _ _ _ Hc), (IH _ Hcs); reflexivity.
Qed.

Lemma mapM_labelled ds items cols :
  mapM (fun kv : string * string =>
          c <- get_table_column ds (snd kv) ;; Ok (Labelled c (fst kv)))
    items = Ok cols ->
  map item_name cols = map fst items.
Proof.
  revert cols; induction items as [|kv items IH]; cbn [mapM]; intros cols H.
  - injection H as <-; reflexivity.
  - apply bind_Ok_inv in H as (i & Hi & H).
    apply bind_Ok_inv in Hi as (c & _ & Hi); injection Hi as <-.
    apply bind_Ok_inv in H as (cs & Hcs & H); injection H as <-.
    cbn [map item_name]. rewrite (IH _ Hcs); reflexivity.
Qed.

(** C7: the projection that [_get_cols_match] returns is the literal
    columns, then the no-matching columns mapped to the matching table, then
    the referential columns mapped to it; the name list has the length of
    the column list, and the i-th name is the name of the i-th column: a
    literal's label, a no-matching column's own name, and for a referential
    column the name of the matching-table column under which it is
    selected. *)
Theorem cols_match_alignment rule_key select_db_cols select_name_cols :
  _get_cols_match self rule_key = Ok (select_db_cols, select_name_cols) ->
  let literal := _get_literal_cols_match self rule_key in
  let no_match_name_cols := get_name_cols_mapped_to_matching (_tgt_source self) in
  let ref_name_cols := get_name_cols_mapped_to_matching (_ref_source self) in
  exists no_match_db_cols ref_db_cols,
    get_db_cols_with_same_name (_no_matching_source self) no_match_name_cols
      = Ok no_match_db_cols
    /\ get_db_cols_mapped_to_matching (_ref_source self) = Ok ref_db_cols
    /\ select_db_cols
       = fst literal ++ map ColRef no_match_db_cols ++ ref_db_cols
    /\ select_name_cols = snd literal ++ no_match_name_cols ++ ref_name_cols
    /\ length select_name_cols = length select_db_cols
    /\ map item_name select_db_cols = select_name_cols
    /\ forall i n,
         select_name_cols !! i = Some n ->
         exists c, select_db_cols !! i = Some c /\ item_name c = n.
Proof.
  intros H; cbn zeta. unfold _get_cols_match in H.
  cbn [_get_literal_cols_match] in H.
  apply bind_Ok_inv in H as (no_match_db_cols & Hnm & H).
  apply bind_Ok_inv in H as (ref_db_cols & Href & H).
  injection H as <- <-.
  exists no_match_db_cols, ref_db_cols.
  split; [exact Hnm|]. split; [exact Href|].
  split; [reflexivity|]. split; [reflexivity|].
  assert (Hnames :
            map item_name
              ([Literal (_literal_matching_type self) "matching_type";
                Literal (_literal_matching_scope self) "matching_scope";
                Literal rule_key "matching_rule"]
               ++ map ColRef no_match_db_cols ++ ref_db_cols)
            = ["matching_type"; "matching_scope"; "matching_rule"]
              ++ get_name_cols_mapped_to_matching (_tgt_source self)
              ++ get_name_cols_mapped_to_matching (_ref_source self)).
  { rewrite !map_app. cbn [map item_name]. do 2 f_equal.
    - pose proof (mapM_get_table_column _ _ _ Hnm) as ->.
      rewrite !List.map_map; cbn [item_name col_name]. apply List.map_id.
    - apply mapM_labelled in Href. exact Href. }
  cbn [_get_literal_cols_match fst snd].
  change (get_name_cols_mapped_to_matching (_tgt_source self))
    with (map fst (map_to_matching (_tgt_source self))) in Hnames |- *.
  change (get_name_cols_mapped_to_matching (_ref_source self))
    with (map fst (map_to_matching (_ref_source self))) in Hnames |- *.
  cbn [app] in Hnames.
  split; [rewrite <- Hnames, length_map; reflexivity|].
  split; [exact Hnames|].
  intros i n Hi. rewrite <- Hnames, list_lookup_fmap in Hi.
  destruct (_ !! i) as [c|]; [|discriminate Hi].
  injection Hi as <-. exists c; split; reflexivity.
Qed.

(** *** Further properties of a run *)

Lemma rules_steps_tables rules :
  forall dml dml' nm_rows ref_rows m_rows,
    separate_tables self ->
    get_table (database dml) (_no_matching_table self) = Ok nm_rows ->
    get_table (database dml) (_ref_table self) = Ok ref_rows ->
    get_table (database dml) (_matching_table self) = Ok m_rows ->
    rules_steps self rules dml = Ok dml' ->
    get_table (database dml') (_ref_table self) = Ok ref_rows
    /\ (exists added,
           get_table (database dml') (_matching_table self)
           = Ok (m_rows ++ added))
    /\ exists nm_rows',
         get_table (database dml') (_no_matching_table self) = Ok nm_rows'
         /\ forall r, In r nm_rows' -> In r nm_rows.
Proof.
  induction rules as [|[rule_key attribute_rules] rest IH];
    intros dml dml' nm_rows ref_rows m_rows Hsep Hnm Href Hm H.
  - injection H as <-. split; [exact Href|]. split.
    + exists []; rewrite app_nil_r; exact Hm.
    + exists nm_rows; auto.
  - cbn [rules_steps] in H. apply bind_Ok_inv in H as (dml1 & H1 & H).
    destruct (rule_step_inv _ _ _ _ _ _ Hsep Hnm Href H1)
      as (cols & names & jc & w & mcols & m_rows0 & _ & _ & _ & _ & _ & Hm0 & Hdb & _).
    cbn zeta in Hdb. rewrite Hm in Hm0; injection Hm0 as <-.
    pose proof Hsep as (Hmn & Hmr & Hrn).
    assert (Hnm1 : get_table (database dml1) (_no_matching_table self)
                   = Ok (List.filter
                           (fun r => negb (deleted_by self jc w nm_rows ref_rows r))
                           nm_rows)).
    { rewrite Hdb. eapply get_table_after_rule; eassumption. }
    assert (Href1 : get_table (database dml1) (_ref_table self) = Ok ref_rows).
    { rewrite Hdb, !get_table_set_table_ne by congruence. exact Href. }
    assert (Hm1 : get_table (database dml1) (_matching_table self)
                  = Ok (m_rows
                        ++ map (fun env => make_row (map col_name mcols)
                                             (map (eval_item env) cols))
                             (matched_pairs self jc w nm_rows ref_rows))).
    { rewrite Hdb, get_table_set_table_ne by congruence.
      eapply get_table_set_table_eq; eassumption. }
    destruct (IH _ _ _ _ _ Hsep Hnm1 Href1 Hm1 H)
      as (Href' & (added & Hm') & nm' & Hnm' & Hsub).
    split; [exact Href'|]. split.
    + eexists. rewrite Hm', <- app_assoc. reflexivity.
    + exists nm'. split; [exact Hnm'|].
      intros r Hr. apply Hsub, List.filter_In in Hr as [Hr _]. exact Hr.
Qed.

(** X9: a run that returns has not touched the referential table and has
    only appended to the matching table: the rows it held are still there,
    in their order, before the rows the run added. *)
Theorem matching_table_is_append_only st st' nm_rows ref_rows m_rows :
  separate_tables self ->
  get_table (database (_dml_manager st)) (_no_matching_table self) = Ok nm_rows ->
  get_table (database (_dml_manager st)) (_ref_table self) = Ok ref_rows ->
  get_table (database (_dml_manager st)) (_matching_table self) = Ok m_rows ->
  execute_matching self st = (Ok tt, st') ->
  get_table (database (_dml_manager st')) (_ref_table self) = Ok ref_rows
  /\ exists added,
       get_table (database (_dml_manager st')) (_matching_table self)
       = Ok (m_rows ++ added).
Proof.
  intros Hsep Hnm Href Hm H. apply execute_matching_Ok in H.
  destruct (rules_steps_tables _ _ _ _ _ _ Hsep Hnm Href Hm H)
    as (Href' & Hm' & _).
  split; assumption.
Qed.

(** X10: the rows a rule inserts into the matching table are one for each
    pair of a no-matching row and a referential row that satisfies the
    rule's join condition and filter, no other and none twice, in the order
    of the select; the row count of the insert is the number of these
    pairs. *)
Theorem inserted_rows_are_the_matched_pairs rule_key attribute_rules st st'
    nm_rows ref_rows m_rows :
  separate_tables self ->
  get_table (database (_dml_manager st)) (_no_matching_table self) = Ok nm_rows ->
  get_table (database (_dml_manager st)) (_ref_table self) = Ok ref_rows ->
  get_table (database (_dml_manager st)) (_matching_table self) = Ok m_rows ->
  execute_rule self rule_key attribute_rules st = (Ok tt, st') ->
  exists cols mcols jc w n2,
    conditions self attribute_rules = Ok (Some jc, w)
    /\ get_table (database (_dml_manager st')) (_matching_table self)
       = Ok (m_rows
             ++ map (match_row cols mcols)
                  (matched_pairs self jc w nm_rows ref_rows))
    /\ executed (_dml_manager st')
       = executed (_dml_manager st)
         ++ [(insert_stm self cols jc w mcols,
              length (matched_pairs self jc w nm_rows ref_rows));
             (delete_stm self jc w, n2)]
    /\ forall env,
         In env (matched_pairs self jc w nm_rows ref_rows)
         <-> exists r rr,
               In r nm_rows /\ In rr ref_rows /\ env = joined self r rr
               /\ holds env jc = true /\ holds env w = true.
Proof.
  intros Hsep Hnm Href Hm H. apply execute_rule_Ok in H.
  destruct (rule_step_inv _ _ _ _ _ _ Hsep Hnm Href H)
    as (cols & names & jc & w & mcols & m_rows0 & _ & Hc & _ & _ & _ & Hm0 & Hdb & Hlog).
  cbn zeta in Hdb, Hlog. rewrite Hm in Hm0; injection Hm0 as <-.
  destruct Hsep as (Hmn & Hmr & Hrn).
  exists cols, mcols, jc, w. eexists.
  split; [exact Hc|]. split.
  { rewrite Hdb, get_table_set_table_ne by congruence.
    eapply get_table_set_table_eq; eassumption. }
  split.
  { rewrite Hlog, length_map. reflexivity. }
  intros env. apply in_matched_pairs.
Qed.

Lemma filter_filter {A} (f g : A -> bool) l :
  List.filter f (List.filter g l) = List.filter (fun x => g x && f x) l.
Proof.
  induction l as [|x l IH]; cbn; [reflexivity|].
  destruct (g x); cbn; [destruct (f x)|]; rewrite IH; reflexivity.
Qed.

Lemma existsb_Permutation {A} (f : A -> bool) l l' :
  Permutation l l' -> existsb f l = existsb f l'.
Proof.
  induction 1 as [|x l l' _ IH|x y l|l l' l'' _ IH1 _ IH2]; cbn [existsb].
  - reflexivity.
  - rewrite IH; reflexivity.
  - destruct (f x), (f y); reflexivity.
  - congruence.
Qed.

Lemma rules_steps_residual rules :
  forall dml dml' nm_rows ref_rows,
    separate_tables self ->
    get_table (database dml) (_no_matching_table self) = Ok nm_rows ->
    get_table (database dml) (_ref_table self) = Ok ref_rows ->
    ids_present self nm_rows ->
    ids_unique self nm_rows ->
    rules_steps self rules dml = Ok dml' ->
    get_table (database dml') (_no_matching_table self)
    = Ok (residual_rows self rules ref_rows nm_rows).
Proof.
  induction rules as [|[rule_key attribute_rules] rest IH];
    intros dml dml' nm_rows ref_rows Hsep Hnm Href Hp Hu H.
  - injection H as <-. unfold residual_rows; cbn [existsb negb].
    rewrite filter_all by reflexivity. exact Hnm.
  - cbn [rules_steps] in H. apply bind_Ok_inv in H as (dml1 & H1 & H).
    destruct (rule_step_inv _ _ _ _ _ _ Hsep Hnm Href H1)
      as (cols & names & jc & w & mcols & m_rows & _ & Hc & _ & _ & _ & Hm & Hdb & _).
    cbn zeta in Hdb. pose proof Hsep as (Hmn & Hmr & Hrn).
    set (kept := List.filter (fun r => negb (is_match self jc w ref_rows r)) nm_rows).
    assert (Hf : List.filter
                   (fun r => negb (deleted_by self jc w nm_rows ref_rows r)) nm_rows
                 = kept).
    { apply List.filter_ext_in. intros r Hr.
      rewrite (deleted_iff_match jc w nm_rows ref_rows r Hp Hu Hr); reflexivity. }
    rewrite Hf in Hdb.
    assert (Hsub : forall r, In r kept -> In r nm_rows).
    { intros r Hr. apply List.filter_In in Hr as [Hr _]. exact Hr. }
    assert (Hnm1 : get_table (database dml1) (_no_matching_table self) = Ok kept).
    { rewrite Hdb. eapply get_table_after_rule; eassumption. }
    assert (Href1 : get_table (database dml1) (_ref_table self) = Ok ref_rows).
    { rewrite Hdb, !get_table_set_table_ne by congruence. exact Href. }
    assert (Hp1 : ids_present self kept) by (intros r Hr; apply Hp, Hsub, Hr).
    assert (Hu1 : ids_unique self kept)
      by (intros r r' Hr Hr'; apply Hu; apply Hsub; assumption).
    rewrite (IH _ _ _ _ Hsep Hnm1 Href1 Hp1 Hu1 H).
    f_equal. unfold residual_rows, kept. rewrite filter_filter.
    apply List.filter_ext. intros r. cbn [existsb snd].
    unfold rule_matches at 2. rewrite Hc.
    rewrite negb_orb. reflexivity.
Qed.

(** X11: when a run returns, the no-matching table holds exactly the rows
    it held before that no rule of the run matches against the referential
    table; the rules taken in another order leave the same no-matching
    table. [matching_id] is taken to identify the rows. *)
Theorem residual_is_what_no_rule_matches st st' nm_rows ref_rows :
  separate_tables self ->
  get_table (database (_dml_manager st)) (_no_matching_table self) = Ok nm_rows ->
  get_table (database (_dml_manager st)) (_ref_table self) = Ok ref_rows ->
  ids_present self nm_rows ->
  ids_unique self nm_rows ->
  execute_matching self st = (Ok tt, st') ->
  get_table (database (_dml_manager st')) (_no_matching_table self)
  = Ok (residual_rows self (_matching_rules self) ref_rows nm_rows)
  /\ forall rules' st2,
       Permutation (_matching_rules self) rules' ->
       execute_matching (with_rules self rules') st = (Ok tt, st2) ->
       get_table (database (_dml_manager st2)) (_no_matching_table self)
       = get_table (database (_dml_manager st')) (_no_matching_table self).
Proof.
  intros Hsep Hnm Href Hp Hu H.
  assert (R : forall rules st1,
             execute_rules self rules st = (Ok tt, st1) ->
             get_table (database (_dml_manager st1)) (_no_matching_table self)
             = Ok (residual_rows self rules ref_rows nm_rows)).
  { intros rules st1 H1.
    destruct (execute_rules_spec rules st) as (st0 & E & Hd).
    rewrite E in H1.
    destruct (rules_steps self rules (_dml_manager st)) as [dml'|e] eqn:Hs;
      [|discriminate H1].
    injection H1 as <-. rewrite (Hd dml' eq_refl).
    eapply rules_steps_residual; eassumption. }
  split; [apply R; exact H|].
  intros rules' st2 HP H2.
  rewrite (R _ _ H). change (execute_matching (with_rules self rules') st)
    with (execute_rules self rules' st) in H2.
  rewrite (R _ _ H2). f_equal.
  unfold residual_rows. apply List.filter_ext. intros r.
  f_equal. symmetry. apply existsb_Permutation; assumption.
Qed.

Lemma execute_rules_shrink rules :
  forall st nm_rows,
    _matching_table self <> _no_matching_table self ->
    get_table (database (_dml_manager st)) (_no_matching_table self) = Ok nm_rows ->
    exists nm_rows',
      get_table (database (_dml_manager (snd (execute_rules self rules st))))
        (_no_matching_table self) = Ok nm_rows'
      /\ forall r, In r nm_rows' -> In r nm_rows.
Proof.
  induction rules as [|[rule_key attribute_rules] rest IH];
    intros st nm_rows Hne Hnm.
  - exists nm_rows; cbn; auto.
  - rewrite execute_rules_cons.
    pose proof (execute_rule_phases rule_key attribute_rules st) as P.
    cbn zeta in P.
    destruct (execute_rule self rule_key attribute_rules st) as [res st1].
    cbn [fst snd] in P.
    destruct P as [(e & -> & Hd)
                  |[(e & cols & jc & w & mcols & db1 & n1 & -> & Hins & Hd)
                   |(cols & jc & w & mcols & db1 & n1 & db2 & n2 & -> & Hins & Hdel & Hd)]].
    + exists nm_rows; cbn [snd]. rewrite Hd; auto.
    + exists nm_rows; cbn [snd]. rewrite Hd; cbn [database].
      rewrite (exec_insert_other _ _ _ _ _ _ _ Hins Hne); auto.
    + pose proof (exec_insert_other _ _ _ _ _ _ _ Hins Hne) as Hmid.
      rewrite Hnm in Hmid.
      destruct (exec_delete_shrinks _ _ _ _ _ Hdel Hmid) as (nm1 & Hnm1 & Hsub1).
      cbn [del_from] in Hnm1.
      assert (Hst1 : get_table (database (_dml_manager st1))
                       (_no_matching_table self) = Ok nm1)
        by (rewrite Hd; exact Hnm1).
      destruct (IH st1 nm1 Hne Hst1) as (nm' & Hnm' & Hsub).
      exists nm'; split; [exact Hnm'|]. auto.
Qed.

(** X12: whatever the outcome of a run, also when a rule raises, the
    no-matching table holds afterwards only rows it held before: a run
    adds no row to it and changes none. *)
Theorem no_matching_table_only_shrinks st nm_rows :
  _matching_table self <> _no_matching_table self ->
  get_table (database (_dml_manager st)) (_no_matching_table self) = Ok nm_rows ->
  exists nm_rows',
    get_table (database (_dml_manager (snd (execute_matching self st))))
      (_no_matching_table self) = Ok nm_rows'
    /\ forall r, In r nm_rows' -> In r nm_rows.
Proof. intros Hne Hnm. apply execute_rules_shrink; assumption. Qed.

(** X13: what the builders hold when a run starts has no part in it: from
    two states with the same DML manager a run returns or raises alike, and
    when it returns it leaves the same database and the same log of
    statements. *)
Theorem builders_do_not_leak st1 st2 :
  _dml_manager st1 = _dml_manager st2 ->
  fst (execute_matching self st1) = fst (execute_matching self st2)
  /\ (fst (execute_matching self st1) = Ok tt ->
      _dml_manager (snd (execute_matching self st1))
      = _dml_manager (snd (execute_matching self st2))).
Proof.
  intros Hd. unfold execute_matching.
  destruct (execute_rules_spec (_matching_rules self) st1) as (s1 & E1 & D1).
  destruct (execute_rules_spec (_matching_rules self) st2) as (s2 & E2 & D2).
  rewrite E1, E2, <- Hd in *. cbn [fst snd].
  split; [reflexivity|].
  destruct (rules_steps self (_matching_rules self) (_dml_manager st1))
    as [dml'|e]; [|discriminate].
  intros _. rewrite (D1 _ eq_refl), (D2 _ eq_refl). reflexivity.
Qed.

Lemma rule_step_columns rule_key attribute_rules dml dml' :
  rule_step self rule_key attribute_rules dml = Ok dml' ->
  exists cols names mcols jc w n1 n2,
    _get_cols_match self rule_key = Ok (cols, names)
    /\ get_db_cols_with_same_name (_matching_source self) names = Ok mcols
    /\ length mcols = length cols
    /\ executed dml'
       = executed dml
         ++ [(insert_stm self cols jc w mcols, n1); (delete_stm self jc w, n2)].
Proof.
  intros H; unfold rule_step in H.
  apply bind_Ok_inv in H as ([cols names] & Hcols & H).
  apply bind_Ok_inv in H as ([jo w] & Hconds & H).
  apply bind_Ok_inv in H as (jc & Hjc & H).
  cbn [fst snd] in *.
  apply bind_Ok_inv in H as (mcols & Hmcols & H).
  apply bind_Ok_inv in H as ([db1 n1] & Hins & H).
  apply bind_Ok_inv in H as (idcol & Hid & H).
  apply bind_Ok_inv in H as ([db2 n2] & Hdel & H).
  injection H as <-. cbn [fst snd executed].
  pose proof (get_table_column_Ok _ _ _ Hid) as ->.
  unfold exec_insert in Hins.
  destruct (Nat.eqb _ _) eqn:Hlen; cbn [negb] in Hins; [|discriminate Hins].
  apply Nat.eqb_eq in Hlen; cbn [sel_cols rule_select] in Hlen.
  exists cols, names, mcols, jc, w, n1, n2.
  repeat (split; [assumption|]).
  rewrite <- app_assoc. reflexivity.
Qed.

(** X14: in the insert of a rule that returns, the target columns are the
    columns of the matching table that bear the names [_get_cols_match]
    returned, in their order, and they are as many as the selected columns:
    the n-th selected value lands in the column of the n-th name. *)
Theorem insert_targets_follow_the_names rule_key attribute_rules st st' :
  execute_rule self rule_key attribute_rules st = (Ok tt, st') ->
  exists cols names mcols jc w n1 n2,
    _get_cols_match self rule_key = Ok (cols, names)
    /\ executed (_dml_manager st')
       = executed (_dml_manager st)
         ++ [(insert_stm self cols jc w mcols, n1); (delete_stm self jc w, n2)]
    /\ mcols = map (mkColumn (_matching_table self)) names
    /\ length mcols = length cols.
Proof.
  intros H. apply execute_rule_Ok in H.
  destruct (rule_step_columns _ _ _ _ H)
    as (cols & names & mcols & jc & w & n1 & n2 & Hcols & Hm & Hlen & Hlog).
  exists cols, names, mcols, jc, w, n1, n2.
  split; [exact Hcols|]. split; [exact Hlog|]. split; [|exact Hlen].
  exact (mapM_get_table_column _ _ _ Hm).
Qed.

(** X15: [_get_conditions] executes nothing and depends on no state: from
    any state it returns (or raises) the same, and it leaves the DML
    manager, the select builder and the delete builder as they were. *)
Theorem get_conditions_is_stateless attribute_rules st1 st2 :
  fst (_get_conditions self attribute_rules st1)
  = fst (_get_conditions self attribute_rules st2)
  /\ _dml_manager (snd (_get_conditions self attribute_rules st1))
     = _dml_manager st1
  /\ _select_builder (snd (_get_conditions self attribute_rules st1))
     = _select_builder st1
  /\ _delete_builder (snd (_get_conditions self attribute_rules st1))
     = _delete_builder st1.
Proof.
  destruct (_get_conditions_spec attribute_rules st1) as (s1 & E1 & D1 & S1 & L1).
  destruct (_get_conditions_spec attribute_rules st2) as (s2 & E2 & _).
  rewrite E1, E2. cbn [fst snd]. auto.
Qed.

End Methods.

(** C1: for a policy that defines no rule of type ['drm'],
    [_can_matcher_be_used] of the residual matcher raises
    [DirectResidualMatchingNotInPolicy], the configuration error of a
    missing rule type, and leaves the matcher's state as it found it, so no
    statement has been executed; a run, which checks applicability first,
    ends there instead of doing nothing. *)
Theorem missing_rule_type_fails_fast tgt ref matching no_matching rules policy st :
  has_rule_type policy "drm" = false ->
  _can_matcher_be_used (__init__ tgt ref matching no_matching rules) policy st
    = (Raise DirectResidualMatchingNotInPolicy, st)
  /\ run tgt ref matching no_matching policy st
     = (Raise DirectResidualMatchingNotInPolicy, st)
  /\ executed (_dml_manager (snd (run tgt ref matching no_matching policy st)))
     = executed (_dml_manager st).
Proof.
  intros H.
  assert (G : forall rules0,
             _can_matcher_be_used (__init__ tgt ref matching no_matching rules0)
               policy st
             = (Raise DirectResidualMatchingNotInPolicy, st)).
  { intros rules0. unfold _can_matcher_be_used.
    cbn [_matching_type __init__]. rewrite H. reflexivity. }
  split; [apply G|].
  assert (R : run tgt ref matching no_matching policy st
              = (Raise DirectResidualMatchingNotInPolicy, st)).
  { unfold run, mbind. rewrite G. reflexivity. }
  split; [exact R | rewrite R; reflexivity].
Qed.

(** *** The theorems at the sample configuration *)

Lemma sample_separate : separate_tables sample_self.
Proof. repeat split; discriminate. Qed.

Lemma sample_ids_present : ids_present sample_self sample_residuals.
Proof.
  intros r Hr. cbn in Hr.
  destruct Hr as [<-|[<-|[<-|[<-|[]]]]]; eexists; reflexivity.
Qed.

Lemma sample_ids_unique : ids_unique sample_self sample_residuals.
Proof.
  intros r r' Hr Hr' H. cbn in Hr, Hr'.
  destruct Hr as [<-|[<-|[<-|[<-|[]]]]];
    destruct Hr' as [<-|[<-|[<-|[<-|[]]]]];
    first [reflexivity | discriminate H].
Qed.

Lemma missing_rule_type_fails_fast_witness :
  run sample_tgt sample_ref sample_matching sample_no_matching
    [("dfm", [("full", ["isin_alias"])])] sample_state
  = (Raise DirectResidualMatchingNotInPolicy, sample_state).
Proof.
  exact (proj1 (proj2 (missing_rule_type_fails_fast sample_tgt sample_ref
                         sample_matching sample_no_matching []
                         [("dfm", [("full", ["isin_alias"])])] sample_state
                         eq_refl))).
Defined.

Lemma join_condition_is_conjunction_witness :
  exists join_condition where_cond st',
    _get_conditions sample_self ["isin_alias"; "lei_alias"] sample_state
      = (Ok (Some join_condition, where_cond), st')
    /\ length (leaves join_condition) = 2.
Proof.
  destruct (join_condition_is_conjunction sample_self
              ["isin_alias"; "lei_alias"] sample_state)
    as (jc & w & st' & ls & E & _ & _ & Hlen & _).
  - discriminate.
  - repeat constructor; eexists; vm_compute; reflexivity.
  - eexists; vm_compute; reflexivity.
  - exists jc, w, st'. split; [exact E | exact Hlen].
Defined.

Lemma purge_is_exact_witness :
  exists st' nm_rows',
    execute_rule sample_self "by_both" ["isin_alias"; "lei_alias"] sample_state
      = (Ok tt, st')
    /\ get_table (database (_dml_manager st')) "NO_MATCHING" = Ok nm_rows'
    /\ ~ In (residual "1" "tgt_a" "A" "L1") nm_rows'
    /\ In (residual "2" "tgt_a" "B" "L9") nm_rows'.
Proof.
  set (out := execute_rule sample_self "by_both" ["isin_alias"; "lei_alias"]
                sample_state).
  assert (E : out = (Ok tt, snd out)) by (vm_compute; reflexivity).
  destruct (purge_is_exact sample_self "by_both" ["isin_alias"; "lei_alias"]
              sample_state (snd out) sample_residuals sample_referential
              sample_separate eq_refl eq_refl sample_ids_present
              sample_ids_unique E)
    as (cols & mcols & jc & w & n1 & n2 & nm' & Hc & _ & Hget & _ & Hgone & Hstay).
  vm_compute in Hc. injection Hc as Hjc Hw. subst jc w.
  exists (snd out), nm'. split; [exact E|]. split; [exact Hget|]. split.
  - apply Hgone; [cbn; auto | vm_compute; reflexivity].
  - apply Hstay; [cbn; auto | vm_compute; reflexivity].
Defined.

Lemma insert_precedes_delete_witness :
  exists nm_rows',
    get_table
      (database (_dml_manager
         (snd (execute_rule sample_self "by_isin" ["isin_alias"] sample_state))))
      "NO_MATCHING" = Ok nm_rows'
    /\ forall r, In r nm_rows' -> In r sample_residuals.
Proof.
  destruct (proj1 (insert_precedes_delete sample_self) "by_isin" ["isin_alias"]
              sample_state sample_residuals ltac:(discriminate) eq_refl)
    as [(_ & Hd)
       |[(cols & jc & w & mcols & n1 & _ & _ & Hnm)
        |(cols & jc & w & mcols & n1 & n2 & nm' & _ & _ & Hnm & Hsub)]].
  - exists sample_residuals. rewrite Hd. split; [reflexivity | auto].
  - exists sample_residuals. split; [exact Hnm | auto].
  - exists nm'. split; [exact Hnm | exact Hsub].
Defined.

Lemma second_run_is_idle_witness :
  exists st1 st2,
    execute_matching sample_self sample_state = (Ok tt, st1)
    /\ execute_matching sample_self st1 = (Ok tt, st2)
    /\ database (_dml_manager st2) = database (_dml_manager st1).
Proof.
  set (out := execute_matching sample_self sample_state).
  assert (E : out = (Ok tt, snd out)) by (vm_compute; reflexivity).
  destruct (second_run_is_idle sample_self sample_state (snd out)
              sample_residuals sample_referential
              sample_separate eq_refl eq_refl sample_ids_present E)
    as (st2 & log & E2 & Hdb & _).
  exists (snd out), st2. auto.
Defined.

Lemma where_condition_is_target_filter_witness :
  exists st' nm_rows',
    execute_rule sample_self "by_both" ["isin_alias"; "lei_alias"] sample_state
      = (Ok tt, st')
    /\ get_table (database (_dml_manager st')) "NO_MATCHING" = Ok nm_rows'
    /\ In (residual "4" "tgt_b" "A" "L1") nm_rows'.
Proof.
  set (out := execute_rule sample_self "by_both" ["isin_alias"; "lei_alias"]
                sample_state).
  assert (E : out = (Ok tt, snd out)) by (vm_compute; reflexivity).
  destruct (proj2 (where_condition_is_target_filter sample_self)
              "by_both" ["isin_alias"; "lei_alias"]
              sample_state (snd out) sample_residuals sample_referential
              sample_separate eq_refl eq_refl sample_ids_present
              sample_ids_unique E)
    as (jc & w & nm' & _ & Hget & Hother).
  exists (snd out), nm'. split; [exact E|]. split; [exact Hget|].
  apply (Hother (residual "4" "tgt_b" "A" "L1")); [cbn; auto | discriminate].
Defined.

Lemma cols_match_alignment_witness :
  exists select_db_cols select_name_cols,
    _get_cols_match sample_self "by_both" = Ok (select_db_cols, select_name_cols)
    /\ map item_name select_db_cols = select_name_cols
    /\ select_name_cols !! 5 = Some "ref_company".
Proof.
  destruct (_get_cols_match sample_self "by_both") as [[cols names]|e] eqn:E;
    [|discriminate E].
  destruct (cols_match_alignment sample_self "by_both" cols names E)
    as (nm_cols & ref_cols & _ & _ & _ & _ & _ & Hnames & _).
  exists cols, names. split; [reflexivity|]. split; [exact Hnames|].
  vm_compute in E. injection E as _ <-. reflexivity.
Defined.

Lemma matching_table_is_append_only_witness :
  exists st' added,
    execute_matching sample_self sample_state = (Ok tt, st')
    /\ get_table (database (_dml_manager st')) "REF" = Ok sample_referential
    /\ get_table (database (_dml_manager st')) "MATCHING" = Ok added.
Proof.
  set (out := execute_matching sample_self sample_state).
  assert (E : out = (Ok tt, snd out)) by (vm_compute; reflexivity).
  destruct (matching_table_is_append_only sample_self sample_state (snd out)
              sample_residuals sample_referential []
              sample_separate eq_refl eq_refl eq_refl E)
    as (Href & added & Hm).
  exists (snd out), added. split; [exact E|]. split; [exact Href | exact Hm].
Defined.

Lemma inserted_rows_are_the_matched_pairs_witness :
  exists st' cols mcols jc w,
    execute_rule sample_self "by_both" ["isin_alias"; "lei_alias"] sample_state
      = (Ok tt, st')
    /\ get_table (database (_dml_manager st')) "MATCHING"
       = Ok (map (match_row cols mcols)
               (matched_pairs sample_self jc w sample_residuals
                  sample_referential)).
Proof.
  set (out := execute_rule sample_self "by_both" ["isin_alias"; "lei_alias"]
                sample_state).
  assert (E : out = (Ok tt, snd out)) by (vm_compute; reflexivity).
  destruct (inserted_rows_are_the_matched_pairs sample_self "by_both"
              ["isin_alias"; "lei_alias"] sample_state (snd out)
              sample_residuals sample_referential []
              sample_separate eq_refl eq_refl eq_refl E)
    as (cols & mcols & jc & w & n2 & _ & Hm & _).
  exists (snd out), cols, mcols, jc, w. split; [exact E | exact Hm].
Defined.

Lemma residual_is_what_no_rule_matches_witness :
  exists st',
    execute_matching sample_self sample_state = (Ok tt, st')
    /\ get_table (database (_dml_manager st')) "NO_MATCHING"
       = Ok (residual_rows sample_self (_matching_rules sample_self)
               sample_referential sample_residuals).
Proof.
  set (out := execute_matching sample_self sample_state).
  assert (E : out = (Ok tt, snd out)) by (vm_compute; reflexivity).
  exists (snd out). split; [exact E|].
  exact (proj1 (residual_is_what_no_rule_matches sample_self sample_state
                  (snd out) sample_residuals sample_referential
                  sample_separate eq_refl eq_refl sample_ids_present
                  sample_ids_unique E)).
Defined.

Lemma no_matching_table_only_shrinks_witness :
  exists nm_rows',
    get_table
      (database (_dml_manager (snd (execute_matching sample_self sample_state))))
      "NO_MATCHING" = Ok nm_rows'
    /\ forall r, In r nm_rows' -> In r sample_residuals.
Proof.
  exact (no_matching_table_only_shrinks sample_self sample_state
           sample_residuals ltac:(discriminate) eq_refl).
Defined.

Lemma builders_do_not_leak_witness :
  fst (execute_matching sample_self sample_state)
  = fst (execute_matching sample_self
           (mkState (Some (EqualValue (mkColumn "NO_MATCHING" "isin") "A")) None
              (mkSelectBuilder [] (Some "REF") [] None)
              (mkDeleteBuilder (Some "REF") None)
              (mkDml sample_db []))).
Proof.
  exact (proj1 (builders_do_not_leak sample_self sample_state
                  (mkState (Some (EqualValue (mkColumn "NO_MATCHING" "isin") "A"))
                     None
                     (mkSelectBuilder [] (Some "REF") [] None)
                     (mkDeleteBuilder (Some "REF") None)
                     (mkDml sample_db []))
                  eq_refl)).
Defined.

Lemma insert_targets_follow_the_names_witness :
  exists cols names mcols,
    _get_cols_match sample_self "by_isin" = Ok (cols, names)
    /\ mcols = map (mkColumn "MATCHING") names
    /\ length mcols = length cols.
Proof.
  set (out := execute_rule sample_self "by_isin" ["isin_alias"] sample_state).
  assert (E : out = (Ok tt, snd out)) by (vm_compute; reflexivity).
  destruct (insert_targets_follow_the_names sample_self "by_isin"
              ["isin_alias"] sample_state (snd out) E)
    as (cols & names & mcols & jc & w & n1 & n2 & Hc & _ & Hm & Hlen).
  exists cols, names, mcols. split; [exact Hc|]. split; [exact Hm | exact Hlen].
Defined.

End MatcherFacts.
